(** * The pyroscope receiver: query validation, record assembly and the
      request handler of [receiver/pyroscopereceiver/receiver.go].

    Go values are embedded as follows.
    - [string] is a byte string: Rocq's [string] (a list of 8-bit [ascii]).
    - [int] and [uint64] are [Z]; every [uint64] operation writes its
      wrap-around modulo [2^64] out.
    - [url.Values], [pcommon.Map] (maps) are [gmap]s with [string] keys.
    - A Go function either returns or panics: [outcome].  The idiom
      [(v, err)] is a pair whose second component is an [option error].
    - The collaborators behind interfaces (decompressor, profile parser,
      downstream consumer, multipart decoding of the request body) are
      fields of the receiver and of the request; what the handler does to
      the outside world is the list of [event]s it emits, in order. *)

From Stdlib Require Import ZArith String Ascii List Lia DecimalString.
From stdpp Require Import base option list gmap strings relations.

Open Scope string_scope.
Open Scope Z_scope.

(** ** Go runtime: returning or panicking *)

Inductive outcome (A : Type) : Type :=
| Returned (a : A)
| Panicked.
Arguments Returned {A} a.
Arguments Panicked {A}.

Global Instance outcome_ret : MRet outcome := fun A a => Returned a.
Global Instance outcome_bind : MBind outcome := fun A B f m =>
  match m with
  | Returned a => f a
  | Panicked => Panicked
  end.

(** [len(s)] for strings and for slices. *)
Definition len (s : string) : Z := Z.of_nat (String.length s).
Definition lenS {A} (l : list A) : Z := Z.of_nat (List.length l).

(** [s[lo:hi]] on a string: panics unless [0 <= lo <= hi <= len(s)]. *)
Definition slice (s : string) (lo hi : Z) : outcome string :=
  if (0 <=? lo) && (lo <=? hi) && (hi <=? len s)
  then Returned (substring (Z.to_nat lo) (Z.to_nat (hi - lo)) s)
  else Panicked.

(** [tmp[0]] on a slice: panics when the slice is empty. *)
Definition index0 {A} (tmp : list A) : outcome A :=
  match tmp with
  | [] => Panicked
  | x :: _ => Returned x
  end.

(** [uint64] wrap-around. *)
Definition wrap64 (z : Z) : Z := z mod 2 ^ 64.

(** ** Errors *)

Inductive numErr : Type :=
| ErrSyntax   (* strconv.ErrSyntax: "invalid syntax" *)
| ErrRange.   (* strconv.ErrRange:  "value out of range" *)

Inductive error : Type :=
| errorString (msg : string)                 (* fmt.Errorf without %w *)
| wrapError (prefix : string) (err : error)  (* fmt.Errorf("<prefix>%w", err), or with %v: the same text *)
| NumError (Func Num : string) (Err : numErr) (* *strconv.NumError *)
| foreignError (msg : string).               (* an error of a collaborator, with its text *)

(** ** Package strings *)

Module GoStrings.

(** [strings.Index(s, c)] for a one-byte separator: the position of the
    first [c] in [s], or [-1]. *)
Fixpoint IndexFrom (c : ascii) (s : string) (pos : Z) : Z :=
  match s with
  | EmptyString => -1
  | String a s' => if Ascii.eqb a c then pos else IndexFrom c s' (pos + 1)
  end.

Definition Index (s : string) (c : ascii) : Z := IndexFrom c s 0.

(** [strings.FieldsFunc(s, f)]: the maximal runs of bytes that do not
    satisfy [f].  [cur] is the field being read ([start >= 0] in Go is
    [cur <> None] here).  The separators of the receiver are ASCII, and
    no byte of a multi-byte UTF-8 sequence (nor an invalid byte, decoded
    as U+FFFD) is ASCII, so scanning bytes finds the same fields as
    scanning runes. *)
Fixpoint FieldsFuncGo (f : ascii -> bool) (s : string) (cur : option string)
  : list string :=
  match s with
  | EmptyString =>
      match cur with
      | Some w => [w]
      | None => []
      end
  | String a s' =>
      if f a then
        match cur with
        | Some w => w :: FieldsFuncGo f s' None
        | None => FieldsFuncGo f s' None
        end
      else
        match cur with
        | Some w => FieldsFuncGo f s' (Some (w ++ String a EmptyString)%string)
        | None => FieldsFuncGo f s' (Some (String a EmptyString))
        end
  end.

Definition FieldsFunc (s : string) (f : ascii -> bool) : list string :=
  FieldsFuncGo f s None.

End GoStrings.

(** ** Package strconv *)

Module strconv.

Definition maxUint64 : Z := 2 ^ 64 - 1.

Definition syntaxError (fn str : string) : error := NumError fn str ErrSyntax.
Definition rangeError (fn str : string) : error := NumError fn str ErrRange.

(** [lower(c) = c | ('x' - 'X')] *)
Definition lower (c : Z) : Z := Z.lor c 32.

Definition byte (c : ascii) : Z := Z.of_N (N_of_ascii c).

(** The loop of [ParseUint] over the bytes of [s], for a [base] in
    [2..36] given explicitly (no prefix, no underscores).  [s0] is the
    whole input, quoted in errors. *)
Fixpoint parseLoop (s0 : string) (base cutoff maxVal : Z) (s : string) (n : Z)
  : Z * option error :=
  match s with
  | EmptyString => (n, None)
  | String a s' =>
      let c := byte a in
      let digit :=
        if (48 <=? c) && (c <=? 57) then Some (c - 48)
        else if (97 <=? lower c) && (lower c <=? 122) then Some (lower c - 97 + 10)
        else None in
      match digit with
      | None => (0, Some (syntaxError "ParseUint" s0))
      | Some d =>
          if d >=? base then (0, Some (syntaxError "ParseUint" s0))
          else if n >=? cutoff then (maxVal, Some (rangeError "ParseUint" s0))
          else
            let n' := wrap64 (n * base) in
            let n1 := wrap64 (n' + d) in
            if (n1 <? n') || (n1 >? maxVal)
            then (maxVal, Some (rangeError "ParseUint" s0))
            else parseLoop s0 base cutoff maxVal s' n1
      end
  end.

(** [strconv.ParseUint(s, base, bitSize)] for [2 <= base <= 36] and
    [1 <= bitSize <= 64], the way the receiver calls it ([10], [64]). *)
Definition ParseUint (s : string) (base bitSize : Z) : Z * option error :=
  if String.eqb s "" then (0, Some (syntaxError "ParseUint" s))
  else
    let cutoff := maxUint64 / base + 1 in
    let maxVal := wrap64 (Z.shiftl 1 bitSize - 1) in
    parseLoop s base cutoff maxVal s 0.

(** [strconv.FormatUint(n, 10)], which [fmt.Sprint] uses for a [uint64]. *)
Definition FormatUint (n : Z) : string :=
  NilZero.string_of_uint (N.to_uint (Z.to_N n)).

End strconv.

(** ** The receiver's data *)

(** [labels.Label] of prometheus/model/labels. *)
Record Label : Type := { Name : string; Value : string }.

Record params : Type := {
  start : Z;             (* uint64 *)
  end_ : Z;              (* uint64; the field [end] of the source *)
  name : string;
  labels : list Label;   (* labels.Labels; nil is [] *)
}.

Definition isLabelSep (r : ascii) : bool :=
  Ascii.eqb r "=" || Ascii.eqb r ",".

(** The loop [for j := 0; j < len(words); j += 2] of [readParams]:
    [words[j+1]] panics when the last word has no partner. *)
Fixpoint appendLabels (ls : list Label) (words : list string) : outcome (list Label) :=
  match words with
  | [] => Returned ls
  | [_] => Panicked
  | w :: v :: rest => appendLabels (ls ++ [{| Name := w; Value := v |}]) rest
  end.

Definition readParams (qsv : gmap string (list string)) : outcome (params * option error) :=
  let p := {| start := 0; end_ := 0; name := ""; labels := [] |} in
  match qsv !! "from" with
  | None => Returned (p, Some (errorString "required start time is missing"))
  | Some tmp =>
  tmp0 ← index0 tmp;
  match strconv.ParseUint tmp0 10 64 with
  | (_, Some err) => Returned (p, Some (wrapError "failed to parse start time: " err))
  | (start', None) =>
  let p := {| start := start'; end_ := 0; name := ""; labels := [] |} in
  match qsv !! "name" with
  | None => Returned (p, Some (errorString "required labels are missing"))
  | Some tmp =>
  tmp0 ← index0 tmp;
  let i := GoStrings.Index tmp0 "{" in
  let length := len tmp0 in
  (** the [if i < 0 ... else ...] block gives the new [i] and the labels,
      or returns early with an error *)
  blk ← (if i <? 0 then Returned (inl (length, []))
         else
           promqllike ← slice tmp0 (i + 1) (length - 1);
           if len promqllike >? 0 then
             let words := GoStrings.FieldsFunc promqllike isLabelSep in
             let sz := lenS words in
             if (sz =? 0) || negb (Z.rem sz 2 =? 0)
             then Returned (inr (errorString "failed to compile labels"))
             else ls ← appendLabels [] words; Returned (inl (i, ls))
           else Returned (inl (i, [])));
  match blk with
  | inr err => Returned (p, Some err)
  | inl (i, ls) =>
  name' ← slice tmp0 0 i;
  let p := {| start := start'; end_ := 0; name := name'; labels := ls |} in
  match qsv !! "until" with
  | None => Returned (p, Some (errorString "required end time is missing"))
  | Some tmp =>
  tmp0 ← index0 tmp;
  match strconv.ParseUint tmp0 10 64 with
  | (_, Some err) => Returned (p, Some (wrapError "failed to parse end time: " err))
  | (end', None) =>
      Returned ({| start := start'; end_ := end'; name := name'; labels := ls |}, None)
  end end end end end end.

(** ** Collaborators' data *)

Module pcommon.

(** [pcommon.Value], for the kinds of value the receiver stores. *)
Inductive Value : Type :=
| ValueStr (s : string)
| ValueSlice (l : list string)
| ValueMap (m : gmap string string).

(** [Slice.FromRaw] on a slice of strings: every element is of a
    supported kind, so no error is reported. *)
Definition FromRaw (raw : list string) : list string * option error :=
  (raw, None).

End pcommon.

Module plog.

Record LogRecord : Type := {
  Timestamp : Z;                         (* pcommon.Timestamp, uint64 *)
  Attributes : gmap string pcommon.Value;
  Body : string;                         (* bytes *)
}.

(** [plog.Logs]: resource logs, each a list of scope logs, each a list
    of log records. *)
Definition Logs : Type := list (list (list LogRecord)).

Definition NewLogs : Logs := [].

End plog.

Module profile_types.

Record ProfileType : Type := {
  Type_ : string;                (* the field [Type] *)
  PeriodType : string;
  PeriodUnit : string;
  SampleType : list string;
  SampleUnit : list string;
}.

Record ProfileIR : Type := {
  Typ : ProfileType;             (* the field [Type] *)
  Payload : string;              (* the bytes of the buffer *)
  PayloadType : string;          (* the enum, as [fmt.Sprint] prints it *)
}.

Record Metadata : Type := { SampleRateHertz : Z }.

End profile_types.

(** [multipart.FileHeader]: the declared file name and what [Open] gives,
    the content of the part or nothing when it fails. *)
Record FileHeader : Type := {
  Filename : string;
  Open : option string;
}.

(** The parts of [*http.Request] the receiver reads.  [ParseMultipartForm]
    is the result of [req.ParseMultipartForm(max)]: an error, or the
    [File] map of [req.MultipartForm]. *)
Record Request : Type := {
  Method : string;
  Query : gmap string (list string);
  ParseMultipartForm : error + gmap string (list FileHeader);
}.

(** The receiver: its configuration and the collaborators it calls.  The
    request context is passed along to the consumer; [ConsumeLogs] is the
    answer the consumer gives in the run at hand. *)
Record pyroscopeReceiver : Type := {
  Timeout : string;     (* recv.cfg.Timeout, as [%s] prints it *)
  Decompress : string -> error + string;
  Parse : string -> profile_types.Metadata ->
          list profile_types.ProfileIR * option error;
  ConsumeLogs : plog.Logs -> option error;
}.

(** ** Effects: what a request does to the outside world *)

Inductive clock : Type := Unix | UnixMilli.

Inductive event : Type :=
| HttpRequestTotal (service errorCode : string)
| HttpResponseTimeMillis (now : clock) (service errorCode : string)
| RequestBodyUncompressedSizeBytes (n : Z) (service typ encoding : string)
| ParsedBodyUncompressedSizeBytes (n : Z) (service typ encoding : string)
| LogError (msg : string)
| WriteResponse (contentType : string) (statusCode : Z) (payload : option string)
| ResetHeaders
| CallParseMultipartForm
| CallDecompress (f : string)
| CallParse (buf : string) (md : profile_types.Metadata)
| CallConsumeLogs (pl : plog.Logs).

(** A computation emits events and then returns or panics. *)
Definition io (A : Type) : Type := list event * outcome A.

Global Instance io_ret : MRet io := fun A a => ([], Returned a).
Global Instance io_bind : MBind io := fun A B f m =>
  match m with
  | (t, Returned a) => let '(t', r) := f a in ((t ++ t')%list, r)
  | (t, Panicked) => (t, Panicked)
  end.

Definition emit (e : event) : io unit := ([e], Returned tt).
Definition lift {A} (o : outcome A) : io A := ([], o).

Definition formatJfr : string := "jfr".
Definition formatPprof : string := "pprof".
Definition errorCodeError : string := "1".
Definition errorCodeSuccess : string := "".

Definition StatusNoContent : Z := 204.
Definition StatusBadRequest : Z := 400.
Definition StatusMethodNotAllowed : Z := 405.
Definition StatusRequestTimeout : Z := 408.
Definition StatusInternalServerError : Z := 500.

Definition ns (sec : Z) : Z := wrap64 (sec * 1000000000).

Definition writeResponse (contentType : string) (statusCode : Z)
    (payload : option string) : io unit :=
  emit (WriteResponse contentType statusCode payload).

Definition writeResponseNoContent : io unit :=
  writeResponse "" StatusNoContent None.

Definition handleError (contentType : string) (statusCode : Z)
    (msg service errorCode : string) : io unit :=
  emit (HttpRequestTotal service errorCode);;
  emit (HttpResponseTimeMillis Unix service errorCode);;
  emit (LogError msg);;
  writeResponse "text/plain" statusCode (Some msg).

Definition openMultipartJfr (req : Request) : io (string * option error) :=
  emit CallParseMultipartForm;;
  match ParseMultipartForm req with
  | inl err => mret ("", Some (wrapError "failed to parse multipart request: " err))
  | inr File =>
      match File !! formatJfr with
      | None => mret ("", Some (errorString "required jfr part is missing"))
      | Some part =>
          fh ← lift (index0 part);
          if negb (String.eqb (Filename fh) formatJfr)
          then mret ("", Some (errorString "jfr filename is not 'jfr'"))
          else match Open fh with
               | None => mret ("", Some (errorString "failed to open jfr file"))
               | Some f => mret (f, None)
               end
      end
  end.

Definition setAttrsFromProfile (prof : profile_types.ProfileIR)
    (m : gmap string pcommon.Value) : gmap string pcommon.Value * option error :=
  let ty := profile_types.Typ prof in
  let m := <["type" := pcommon.ValueStr (profile_types.Type_ ty)]> m in
  let m := <["sample_types" := pcommon.ValueSlice []]> m in
  match pcommon.FromRaw (profile_types.SampleType ty) with
  | (_, Some err) => (m, Some err)
  | (s, None) =>
  let m := <["sample_types" := pcommon.ValueSlice s]> m in
  let m := <["sample_units" := pcommon.ValueSlice []]> m in
  match pcommon.FromRaw (profile_types.SampleUnit ty) with
  | (_, Some err) => (m, Some err)
  | (s, None) =>
  let m := <["sample_units" := pcommon.ValueSlice s]> m in
  let m := <["period_type" := pcommon.ValueStr (profile_types.PeriodType ty)]> m in
  let m := <["period_unit" := pcommon.ValueStr (profile_types.PeriodUnit ty)]> m in
  let m := <["payload_type" := pcommon.ValueStr (profile_types.PayloadType prof)]> m in
  (m, None)
  end end.

(** The attributes [readProfiles] puts before [setAttrsFromProfile]. *)
Definition paramAttrs (pm : params) : gmap string pcommon.Value :=
  let m := <["duration_ns" :=
             pcommon.ValueStr (strconv.FormatUint (ns (wrap64 (end_ pm - start pm))))]>
           (∅ : gmap string pcommon.Value) in
  let m := <["service_name" := pcommon.ValueStr (name pm)]> m in
  let tm := foldl (fun tm l => <[Name l := Value l]> tm)
                  (∅ : gmap string string) (labels pm) in
  <["tags" := pcommon.ValueMap tm]> m.

(** The loop [for _, pr := range ps] of [readProfiles]: the records so
    far, the running payload size, and the error that ends it early. *)
Fixpoint appendRecords (pm : params) (ps : list profile_types.ProfileIR)
    (rs : list plog.LogRecord) (sz : Z) : list plog.LogRecord * Z * option error :=
  match ps with
  | [] => (rs, sz, None)
  | pr :: ps' =>
      match setAttrsFromProfile pr (paramAttrs pm) with
      | (m, Some err) =>
          ((rs ++ [{| plog.Timestamp := ns (start pm);
                      plog.Attributes := m;
                      plog.Body := "" |}])%list,
           sz, Some (wrapError "failed to parse sample types: " err))
      | (m, None) =>
          appendRecords pm ps'
            (rs ++ [{| plog.Timestamp := ns (start pm);
                       plog.Attributes := m;
                       plog.Body := profile_types.Payload pr |}])
            (sz + len (profile_types.Payload pr))
      end
  end.

Definition readProfiles (recv : pyroscopeReceiver) (req : Request) (pm : params)
    : io (plog.Logs * option error) :=
  let logs := plog.NewLogs in
  let qs := Query req in
  let unsupported : io (plog.Logs * option error) :=
    mret (logs, Some (errorString "unsupported format, supported: [jfr]")) in
  let supported : io (plog.Logs * option error) :=
    '(f, err) ← openMultipartJfr req;
    match err with
    | Some err => mret (logs, Some err)
    | None =>
    emit (CallDecompress f);;
    match Decompress recv f with
    | inl err => mret (logs, Some (wrapError "failed to decompress body: " err))
    | inr buf =>
    emit (RequestBodyUncompressedSizeBytes (len buf) (name pm) formatJfr "");;
    emit ResetHeaders;;
    md ← match qs !! "sampleRate" with
         | None => mret (inl {| profile_types.SampleRateHertz := 0 |})
         | Some tmp =>
             tmp0 ← lift (index0 tmp);
             match strconv.ParseUint tmp0 10 64 with
             | (_, Some err) => mret (inr (wrapError "failed to parse rate: " err))
             | (hz, None) => mret (inl {| profile_types.SampleRateHertz := hz |})
             end
         end;
    match md with
    | inr err => mret (logs, Some err)
    | inl md =>
    emit (CallParse buf md);;
    match Parse recv buf md with
    | (_, Some err) => mret (logs, Some (wrapError "failed to parse pprof: " err))
    | (ps, None) =>
    match appendRecords pm ps [] 0 with
    | (rs, _, Some err) => mret ([[rs]], Some err)
    | (rs, sz, None) =>
        emit (ParsedBodyUncompressedSizeBytes sz (name pm) formatPprof "");;
        mret ([[rs]], None)
    end end end end end in
  match qs !! "format" with
  | None => unsupported
  | Some tmp =>
      tmp0 ← lift (index0 tmp);
      if String.eqb tmp0 "jfr" then supported else unsupported
  end.

Section Handler.

(** [strconv.Quote] of the Go standard library, which [NumError.Error]
    applies to the input it reports. *)
Variable Quote : string -> string.

Definition numErrText (e : numErr) : string :=
  match e with
  | ErrSyntax => "invalid syntax"
  | ErrRange => "value out of range"
  end.

(** [err.Error()] *)
Fixpoint Error (err : error) : string :=
  match err with
  | errorString msg => msg
  | wrapError prefix err => prefix ++ Error err
  | NumError fn num e =>
      "strconv." ++ fn ++ ": parsing " ++ Quote num ++ ": " ++ numErrText e
  | foreignError msg => msg
  end.

(** The body of the goroutine that [handle] starts; the completion
    signal it sends at the end is in [step] below. *)
Definition handle (recv : pyroscopeReceiver) (req : Request) : io unit :=
  '(pm, err) ← lift (readParams (Query req));
  match err with
  | Some _ =>
      handleError "text/plain" StatusBadRequest "bad url query" "" errorCodeError
  | None =>
  if negb (String.eqb (Method req) "POST")
  then handleError "text/plain" StatusMethodNotAllowed
         "method not allowed, supported: [POST]" (name pm) errorCodeError
  else
  '(pl, err) ← readProfiles recv req pm;
  match err with
  | Some err =>
      handleError "text/plain" StatusBadRequest (Error err) (name pm) errorCodeError
  | None =>
  rl ← lift (index0 pl);
  sl ← lift (index0 rl);
  if lenS sl =? 0 then writeResponseNoContent
  else
  emit (CallConsumeLogs pl);;
  match ConsumeLogs recv pl with
  | Some err =>
      handleError "text/plain" StatusInternalServerError (Error err) (name pm)
        errorCodeError
  | None =>
      emit (HttpRequestTotal (name pm) errorCodeSuccess);;
      emit (HttpResponseTimeMillis UnixMilli (name pm) errorCodeSuccess);;
      writeResponseNoContent
  end end end.

End Handler.

(** ** [httpHandlerIngest]: the handler racing the goroutine

    The goroutine started by [handle] emits the events of [handle] one
    after the other and then offers its completion signal on the
    unbuffered channel [c].  Nothing in it reads [ctx.Done()], so its
    steps are enabled whatever the deadline and the handler do.  The
    handler waits in [select]: once [ctx.Done()] is closed it may answer
    with the timeout error, and once the goroutine has emitted everything
    it may receive the signal. *)

Inductive thread : Type := Handler | Goroutine.

Inductive selectState : Type :=
| Selecting    (* blocked in [select] *)
| TimedOut     (* took [case <-ctx.Done()] and returned *)
| Completed.   (* took [case <-recv.handle(...)] and returned *)

Record state : Type := {
  emitted : nat;                     (* events the goroutine has emitted *)
  done : bool;                       (* [ctx.Done()] is closed *)
  handler : selectState;
  trace : list (thread * event);     (* all events, in the order emitted *)
}.

Definition init : state :=
  {| emitted := 0; done := false; handler := Selecting; trace := [] |}.

Section Ingest.

Variable Quote : string -> string.
Variable recv : pyroscopeReceiver.
Variable req : Request.

(** What the goroutine emits, in order. *)
Definition script : list event := fst (handle Quote recv req).

Definition timeoutError : io unit :=
  handleError "text/plain" StatusRequestTimeout
    ("receiver timeout elapsed: " ++ Timeout recv) "" errorCodeError.

Inductive step : state -> state -> Prop :=
| step_work s e :
    script !! emitted s = Some e ->
    step s {| emitted := S (emitted s); done := done s; handler := handler s;
              trace := (trace s ++ [(Goroutine, e)])%list |}
| step_deadline s :
    done s = false ->
    step s {| emitted := emitted s; done := true; handler := handler s;
              trace := trace s |}
| step_timeout s :
    handler s = Selecting ->
    done s = true ->
    step s {| emitted := emitted s; done := done s; handler := TimedOut;
              trace := (trace s ++ map (pair Handler) (fst timeoutError))%list |}
| step_complete s :
    handler s = Selecting ->
    emitted s = List.length script ->
    step s {| emitted := emitted s; done := done s; handler := Completed;
              trace := trace s |}.

Definition reachable (s : state) : Prop := rtc step init s.

(** The events one thread has emitted. *)
Definition eventsOf (th : thread) (t : list (thread * event)) : list event :=
  omap (fun '(th', e) =>
          match th, th' with
          | Handler, Handler | Goroutine, Goroutine => Some e
          | _, _ => None
          end) t.

(** What holds in every state of the race: the goroutine has emitted a
    prefix of its script, and the handler has emitted the timeout
    error or nothing. *)
Record inv (s : state) : Prop := {
  inv_goroutine : eventsOf Goroutine (trace s) = take (emitted s) script;
  inv_handler :
    eventsOf Handler (trace s)
    = match handler s with
      | TimedOut => fst timeoutError
      | _ => []
      end;
}.

End Ingest.

(** ** Observations on a list of events *)

Definition isRequestTotal (e : event) : bool :=
  match e with HttpRequestTotal _ _ => true | _ => false end.

Definition isResponseTime (e : event) : bool :=
  match e with HttpResponseTimeMillis _ _ _ => true | _ => false end.

Definition isLogError (e : event) : bool :=
  match e with LogError _ => true | _ => false end.

Definition isConsumeLogs (e : event) : bool :=
  match e with CallConsumeLogs _ => true | _ => false end.

(** Multipart extraction, decompression or profile parsing is attempted. *)
Definition isBodyWork (e : event) : bool :=
  match e with
  | CallParseMultipartForm | CallDecompress _ | CallParse _ _ => true
  | _ => false
  end.

(** A sign that a request is treated as an error: an error log entry, a
    metric with the error code, or a response of status 400 or above. *)
Definition isErrorReport (e : event) : bool :=
  match e with
  | LogError _ => true
  | HttpRequestTotal _ c | HttpResponseTimeMillis _ _ c => String.eqb c errorCodeError
  | WriteResponse _ st _ => 400 <=? st
  | _ => false
  end.

Definition count (f : event -> bool) (t : list event) : nat :=
  List.length (List.filter f t).

(** The responses written, with their status and body. *)
Definition responses (t : list event) : list (string * Z * option string) :=
  omap (fun e => match e with
                 | WriteResponse ct st body => Some (ct, st, body)
                 | _ => None
                 end) t.

(** ** The six ways query validation fails *)

Inductive failure : Type :=
| MissingFrom | UnparseableFrom | MissingName | MalformedLabels
| MissingUntil | UnparseableUntil.

(** The text with which the error of each failure starts. *)
Definition failureMessage (f : failure) : string :=
  match f with
  | MissingFrom => "required start time is missing"
  | UnparseableFrom => "failed to parse start time: "
  | MissingName => "required labels are missing"
  | MalformedLabels => "failed to compile labels"
  | MissingUntil => "required end time is missing"
  | UnparseableUntil => "failed to parse end time: "
  end.

(** When a query fails in each of the six ways. *)
Definition failsWith (qsv : gmap string (list string)) (f : failure) : Prop :=
  match f with
  | MissingFrom => qsv !! "from" = None
  | UnparseableFrom =>
      exists v rest err, qsv !! "from" = Some (v :: rest)
                         /\ snd (strconv.ParseUint v 10 64) = Some err
  | MissingName => qsv !! "name" = None
  | MalformedLabels =>
      exists v rest blk,
        qsv !! "name" = Some (v :: rest)
        /\ slice v (GoStrings.Index v "{" + 1) (len v - 1) = Returned blk
        /\ blk <> ""
        /\ let sz := lenS (GoStrings.FieldsFunc blk isLabelSep) in
           sz = 0 \/ Z.odd sz = true
  | MissingUntil => qsv !! "until" = None
  | UnparseableUntil =>
      exists v rest err, qsv !! "until" = Some (v :: rest)
                         /\ snd (strconv.ParseUint v 10 64) = Some err
  end.

(** ** Label expressions as text *)

(** [k=v] *)
Definition labelText (l : Label) : string := Name l ++ "=" ++ Value l.

(** [k1=v1,k2=v2,...] *)
Definition labelsText (ls : list Label) : string :=
  String.concat "," (map labelText ls).

(** No separator of the label grammar occurs in [s]. *)
Fixpoint noSep (s : string) : bool :=
  match s with
  | EmptyString => true
  | String a s' => negb (isLabelSep a) && noSep s'
  end.

(** A label the grammar [k=v(,k=v)*] can express: both sides are
    non-empty and free of [=] and [,]. *)
Definition validLabel (l : Label) : bool :=
  negb (String.eqb (Name l) "") && noSep (Name l)
  && negb (String.eqb (Value l) "") && noSep (Value l).

(** The words of a label list, as [FieldsFunc] yields them. *)
Definition labelWords (ls : list Label) : list string :=
  flat_map (fun l => [Name l; Value l]) ls.

(** ** Record assembly *)

(** The text [readProfiles] stores under [duration_ns]. *)
Definition durationText (pm : params) : string :=
  strconv.FormatUint (ns (wrap64 (end_ pm - start pm))).

(** The events of [readProfiles] up to the call of the parser. *)
Definition bodyPrefix (pm : params) (f buf : string) (md : profile_types.Metadata)
    : list event :=
  [CallParseMultipartForm; CallDecompress f;
   RequestBodyUncompressedSizeBytes (len buf) (name pm) formatJfr "";
   ResetHeaders; CallParse buf md].

Definition unsupportedFormat : string := "unsupported format, supported: [jfr]".

(** ** Concrete inputs *)

(** [strconv.Quote] on printable ASCII text without quote or backslash:
    the text between two double quotes. *)
Definition QuotePlain (s : string) : string :=
  String (ascii_of_nat 34) (s ++ String (ascii_of_nat 34) "").

Definition query3 (f n u : string) : gmap string (list string) :=
  <["from" := [f]]> (<["name" := [n]]> (<["until" := [u]]> ∅)).

Definition queryJfr (f n u : string) : gmap string (list string) :=
  <["format" := ["jfr"]]> (query3 f n u).

Definition cpuType : profile_types.ProfileType :=
  {| profile_types.Type_ := "cpu";
     profile_types.PeriodType := "cpu";
     profile_types.PeriodUnit := "ns";
     profile_types.SampleType := ["samples"];
     profile_types.SampleUnit := ["count"] |}.

Definition cpuProfile : profile_types.ProfileIR :=
  {| profile_types.Typ := cpuType;
     profile_types.Payload := "P";
     profile_types.PayloadType := "0" |}.

(** A receiver whose decompressor is the identity, whose parser returns
    [ps] and whose consumer accepts every batch. *)
Definition stubReceiver (ps : list profile_types.ProfileIR) : pyroscopeReceiver :=
  {| Timeout := "10s";
     Decompress := fun f => inr f;
     Parse := fun _ _ => (ps, None);
     ConsumeLogs := fun _ => None |}.

(** A request with one part [jfr] of file name [jfr] and content [B]. *)
Definition jfrRequest (method : string) (q : gmap string (list string)) : Request :=
  {| Method := method;
     Query := q;
     ParseMultipartForm :=
       inr (<["jfr" := [{| Filename := "jfr"; Open := Some "B" |}]]> ∅) |}.

Definition emptyQueryRequest : Request := jfrRequest "POST" ∅.

Definition fromOnlyRequest : Request := jfrRequest "POST" (<["from" := ["1"]]> ∅).

(** A run in which the deadline passes while the parser is at work. *)
Definition lateRecv : pyroscopeReceiver := stubReceiver [cpuProfile].

Definition lateReq : Request :=
  jfrRequest "POST" (queryJfr "1000" "svc{env=prod}" "2000").

Definition lateState : state :=
  let sc := script QuotePlain lateRecv lateReq in
  {| emitted := 7; done := true; handler := TimedOut;
     trace := (map (pair Goroutine) (take 5 sc)
               ++ map (pair Handler) (fst (timeoutError lateRecv))
               ++ map (pair Goroutine) (take 2 (drop 5 sc)))%list |}.

(** Params whose end is before their start. *)
Definition wrapParams : params :=
  {| start := 2000; end_ := 1000; name := "svc"; labels := [] |}.

(** The logs a run of [readProfiles] returns. *)
Definition logsOf (r : io (plog.Logs * option error)) : plog.Logs :=
  match snd r with
  | Returned (logs, _) => logs
  | Panicked => []
  end.

(** ** The pooled buffer: [acquireBuf] and [releaseBuf]

    A [*bytes.Buffer] is kept as its content, a [sync.Pool] as the list
    of the buffers it holds.  [Pool.Get] may hand out any of them, or
    report none whatever it holds; the runtime may drop pooled items at
    any time. *)

Module sync.

Abbreviation Pool := (list string).

Inductive Get : Pool -> option string -> Pool -> Prop :=
| Get_none p : Get p None p
| Get_some p1 b p2 : Get (p1 ++ b :: p2)%list (Some b) (p1 ++ p2)%list.

Definition Put (p : Pool) (b : string) : Pool := b :: p.

End sync.

(** [acquireBuf(p)]: what [Get] gives, or a new empty buffer for nil. *)
Inductive acquireBuf : sync.Pool -> string -> sync.Pool -> Prop :=
| acquireBuf_intro p v p' :
    sync.Get p v p' ->
    acquireBuf p (match v with Some buf => buf | None => "" end) p'.

(** [buf.Reset()] *)
Definition Reset (buf : string) : string := "".

(** [releaseBuf(p, buf)] *)
Definition releaseBuf (p : sync.Pool) (buf : string) : sync.Pool :=
  sync.Put p (Reset buf).

(** What happens to the receiver's pool over time: a request acquires a
    buffer, a request releases the buffer it wrote [buf] to, or the
    runtime drops a pooled buffer. *)
Inductive poolStep : sync.Pool -> sync.Pool -> Prop :=
| pool_acquire p buf p' : acquireBuf p buf p' -> poolStep p p'
| pool_release p buf : poolStep p (releaseBuf p buf)
| pool_drop p1 b p2 : poolStep (p1 ++ b :: p2)%list (p1 ++ p2)%list.

(** ** Further observations *)

(** The record the loop of [readProfiles] builds for one profile. *)
Definition recordOf (pm : params) (pr : profile_types.ProfileIR) : plog.LogRecord :=
  {| plog.Timestamp := ns (start pm);
     plog.Attributes := fst (setAttrsFromProfile pr (paramAttrs pm));
     plog.Body := profile_types.Payload pr |}.

(** The sum of the payload sizes, [sz] at the end of the loop. *)
Definition payloadSize (ps : list profile_types.ProfileIR) : Z :=
  foldr (fun pr n => len (profile_types.Payload pr) + n) 0 ps.

Definition isWriteResponse (e : event) : bool :=
  match e with WriteResponse _ _ _ => true | _ => false end.

(** The messages logged as errors. *)
Definition logged (t : list event) : list string :=
  omap (fun e => match e with LogError msg => Some msg | _ => None end) t.

(** The metadata the parser was called with. *)
Definition parserCalls (t : list event) : list (string * profile_types.Metadata) :=
  omap (fun e => match e with CallParse buf md => Some (buf, md) | _ => None end) t.

(** The events of a successful or failed delegation, after the call. *)
Definition afterConsume (Quote : string -> string) (pm : params)
    (r : option error) : list event :=
  match r with
  | Some err =>
      [HttpRequestTotal (name pm) errorCodeError;
       HttpResponseTimeMillis Unix (name pm) errorCodeError;
       LogError (Error Quote err);
       WriteResponse "text/plain" StatusInternalServerError (Some (Error Quote err))]
  | None =>
      [HttpRequestTotal (name pm) errorCodeSuccess;
       HttpResponseTimeMillis UnixMilli (name pm) errorCodeSuccess;
       WriteResponse "" StatusNoContent None]
  end.

(** A decimal digit. *)
Definition isDigit (a : ascii) : bool :=
  (48 <=? strconv.byte a) && (strconv.byte a <=? 57).

Fixpoint allDigits (s : string) : bool :=
  match s with
  | EmptyString => true
  | String a s' => isDigit a && allDigits s'
  end.

(** A receiver whose consumer refuses every batch. *)
Definition failingReceiver : pyroscopeReceiver :=
  {| Timeout := "10s";
     Decompress := fun f => inr f;
     Parse := fun _ _ => ([cpuProfile; cpuProfile], None);
     ConsumeLogs := fun _ => Some (foreignError "sink is down") |}.

(** A receiver whose decompressor fails. *)
Definition brokenGzipReceiver : pyroscopeReceiver :=
  {| Timeout := "10s";
     Decompress := fun _ => inl (foreignError "gzip: invalid header");
     Parse := fun _ _ => ([cpuProfile], None);
     ConsumeLogs := fun _ => None |}.

(** Params with a label name given twice. *)
Definition twiceParams : params :=
  {| start := 1000; end_ := 2000; name := "svc";
     labels := [{| Name := "env"; Value := "dev" |};
                {| Name := "zone"; Value := "a" |};
                {| Name := "env"; Value := "prod" |}] |}.

(** The run of [lateReq] in which the goroutine has finished and the
    handler has timed out. *)
Definition doubleState : state :=
  let sc := script QuotePlain lateRecv lateReq in
  {| emitted := 10; done := true; handler := TimedOut;
     trace := (map (pair Goroutine) sc
               ++ map (pair Handler) (fst (timeoutError lateRecv)))%list |}.

(** The run of [lateReq] in which the handler receives the signal. *)
Definition completedState : state :=
  let sc := script QuotePlain lateRecv lateReq in
  {| emitted := 10; done := false; handler := Completed;
     trace := map (pair Goroutine) sc |}.

(** A request whose form has no part at all. *)
Definition noPartRequest : Request :=
  {| Method := "POST";
     Query := queryJfr "1000" "svc" "2000";
     ParseMultipartForm := inr ∅ |}.

(** Requests with a sample rate, unparseable and parseable. *)
Definition badRateRequest : Request :=
  jfrRequest "POST" (<["sampleRate" := ["x"]]> (queryJfr "1000" "svc" "2000")).

Definition rateRequest : Request :=
  jfrRequest "POST" (<["sampleRate" := ["100"]]> (queryJfr "1000" "svc" "2000")).

(** A receiver whose parser fails. *)
Definition brokenParserReceiver : pyroscopeReceiver :=
  {| Timeout := "10s";
     Decompress := fun f => inr f;
     Parse := fun _ _ => ([], Some (foreignError "bad magic"));
     ConsumeLogs := fun _ => None |}.

Definition svcParams : params :=
  {| start := 1000; end_ := 2000; name := "svc"; labels := [] |}.

Definition prodParams : params :=
  {| start := 1000; end_ := 2000; name := "svc";
     labels := [{| Name := "env"; Value := "prod" |}] |}.

(** ** The stages before the loop, read off the request *)

(** The request's form holds a part [jfr] whose first file is named
    [jfr] and opens with content [f]. *)
Definition opensPart (req : Request) (f : string) : Prop :=
  exists File fh fhs,
    ParseMultipartForm req = inr File
    /\ File !! "jfr" = Some (fh :: fhs)
    /\ Filename fh = "jfr"
    /\ Open fh = Some f.

(** [md] is the metadata the query asks for: its parsed [sampleRate],
    or 0 when it has none. *)
Definition rateOf (req : Request) (md : profile_types.Metadata) : Prop :=
  match Query req !! "sampleRate" with
  | None => profile_types.SampleRateHertz md = 0
  | Some tmp =>
      exists v rest,
        tmp = v :: rest
        /\ strconv.ParseUint v 10 64 = (profile_types.SampleRateHertz md, None)
  end.

(** ** Decimal numbers *)

(** The number a string of decimal digits writes, read left to right
    from [n]. *)
Fixpoint decimalFrom (s : string) (n : Z) : Z :=
  match s with
  | EmptyString => n
  | String a s' => decimalFrom s' (n * 10 + (strconv.byte a - 48))
  end.

Definition decimalValue (s : string) : Z := decimalFrom s 0.

(** ** The label block of the grammar *)

(** The position of the last [c] in [s], or [-1]. *)
Fixpoint LastIndexFrom (c : ascii) (s : string) (pos last : Z) : Z :=
  match s with
  | EmptyString => last
  | String a s' => LastIndexFrom c s' (pos + 1) (if Ascii.eqb a c then pos else last)
  end.

Definition LastIndex (s : string) (c : ascii) : Z := LastIndexFrom c s 0 (-1).

(** The label block as the grammar [name{k=v(,k=v)*}] of the source's
    comment and the specification have it: the text between the first
    [{] and the final [}] of the value, when both are there in that
    order.  [readParams] does not compute this; it takes the slice from
    after the first [{] to before the last byte. *)
Definition grammarLabelBlock (v : string) : option string :=
  let i := GoStrings.Index v "{" in
  let j := LastIndex v "}" in
  if (0 <=? i) && (i <? j)
  then match slice v (i + 1) j with
       | Returned blk => Some blk
       | Panicked => None
       end
  else None.

(** * Properties *)

(** ** Strings and slices *)

Lemma append_nil_l (b : string) : "" ++ b = b.
Proof. reflexivity. Qed.

Lemma append_cons (c : ascii) (a b : string) : String c a ++ b = String c (a ++ b).
Proof. reflexivity. Qed.

Lemma append_nil_r (a : string) : a ++ "" = a.
Proof. induction a as [|x a IH]; [done|]. by rewrite append_cons, IH. Qed.

Lemma append_assoc (a b c : string) : (a ++ b) ++ c = a ++ (b ++ c).
Proof. induction a as [|x a IH]; [done|]. by rewrite !append_cons, IH. Qed.

Lemma len_cons (c : ascii) (a : string) : len (String c a) = 1 + len a.
Proof. unfold len. cbn [String.length]. lia. Qed.

Lemma len_nonneg (s : string) : 0 <= len s.
Proof. unfold len. lia. Qed.

Lemma len_zero (s : string) : len s = 0 -> s = "".
Proof. destruct s; [done|]. rewrite len_cons. pose proof (len_nonneg s). lia. Qed.

Lemma len_app (a b : string) : len (a ++ b) = len a + len b.
Proof.
  induction a as [|c a IH]; [done|].
  rewrite append_cons, !len_cons. lia.
Qed.

Lemma substring_prefix (b c : string) :
  substring 0 (String.length b) (b ++ c) = b.
Proof.
  induction b as [|x b IH].
  - rewrite append_nil_l. by destruct c.
  - rewrite append_cons. cbn [String.length substring]. by rewrite IH.
Qed.

Lemma substring_skip (a b : string) (m : nat) :
  substring (String.length a) m (a ++ b) = substring 0 m b.
Proof. induction a as [|x a IH]; [done|]. rewrite append_cons. apply IH. Qed.

Lemma slice_prefix (a b : string) : slice (a ++ b) 0 (len a) = Returned a.
Proof.
  unfold slice. rewrite len_app.
  pose proof (len_nonneg a). pose proof (len_nonneg b).
  replace ((0 <=? 0) && (0 <=? len a) && (len a <=? len a + len b)) with true
    by (symmetry; rewrite !andb_true_iff, !Z.leb_le; lia).
  unfold len. rewrite Z.sub_0_r, Nat2Z.id. cbn [Z.to_nat].
  by rewrite substring_prefix.
Qed.

Lemma slice_middle (a b c : string) :
  slice (a ++ b ++ c) (len a) (len a + len b) = Returned b.
Proof.
  unfold slice. rewrite !len_app.
  pose proof (len_nonneg a). pose proof (len_nonneg b). pose proof (len_nonneg c).
  replace ((0 <=? len a) && (len a <=? len a + len b)
           && (len a + len b <=? len a + (len b + len c))) with true
    by (symmetry; rewrite !andb_true_iff, !Z.leb_le; lia).
  replace (len a + len b - len a) with (len b) by lia.
  unfold len. rewrite !Nat2Z.id.
  by rewrite substring_skip, substring_prefix.
Qed.

Section StringsFacts.
Import GoStrings.

Lemma IndexFrom_absent (c : ascii) (s : string) (p q : Z) :
  0 <= p -> 0 <= q -> IndexFrom c s p = -1 -> IndexFrom c s q = -1.
Proof.
  revert p q. induction s as [|a s IH]; intros p q Hp Hq; cbn [IndexFrom]; [done|].
  destruct (Ascii.eqb a c); [lia|].
  apply IH; lia.
Qed.

(** The first [c] of [a ++ c :: rest] is right after [a] when [a] has none. *)
Lemma IndexFrom_first (c : ascii) (a rest : string) (p : Z) :
  0 <= p -> IndexFrom c a 0 = -1 ->
  IndexFrom c (a ++ String c rest) p = p + len a.
Proof.
  revert p. induction a as [|x a IH]; intros p Hp Ha.
  - rewrite append_nil_l. cbn [IndexFrom]. rewrite Ascii.eqb_refl.
    change (len "") with 0. lia.
  - rewrite append_cons, len_cons. cbn [IndexFrom] in *.
    destruct (Ascii.eqb x c); [lia|].
    rewrite IH; [lia|lia|by apply (IndexFrom_absent c a 1 0)].
Qed.

(** [Index] is [-1] or a position inside the string. *)
Lemma IndexFrom_range (c : ascii) (s : string) (p : Z) :
  IndexFrom c s p = -1 \/ (p <= IndexFrom c s p < p + len s).
Proof.
  revert p. induction s as [|a s IH]; intros p; cbn [IndexFrom]; [by left|].
  rewrite len_cons. pose proof (len_nonneg s).
  destruct (Ascii.eqb a c); [right; lia|].
  destruct (IH (p + 1)) as [->|Hr]; [by left|right]. lia.
Qed.

Lemma FieldsFuncGo_sep (a : ascii) (s c : string) :
  isLabelSep a = true ->
  FieldsFuncGo isLabelSep (String a s) (Some c) = c :: FieldsFuncGo isLabelSep s None.
Proof. intros Ha. cbn [FieldsFuncGo]. by rewrite Ha. Qed.

(** A run without separators extends the field being read. *)
Lemma FieldsFuncGo_word_some (w s c : string) :
  noSep w = true ->
  FieldsFuncGo isLabelSep (w ++ s) (Some c) = FieldsFuncGo isLabelSep s (Some (c ++ w)).
Proof.
  revert c. induction w as [|a w IH]; intros c Hw.
  - by rewrite append_nil_l, append_nil_r.
  - cbn [noSep] in Hw. apply andb_true_iff in Hw as [Ha Hw].
    apply negb_true_iff in Ha.
    rewrite append_cons. cbn [FieldsFuncGo]. rewrite Ha.
    rewrite IH by done. by rewrite append_assoc.
Qed.

Lemma FieldsFuncGo_word_none (w s : string) :
  noSep w = true -> w <> "" ->
  FieldsFuncGo isLabelSep (w ++ s) None = FieldsFuncGo isLabelSep s (Some w).
Proof.
  destruct w as [|a w]; [done|]. intros Hw _.
  cbn [noSep] in Hw. apply andb_true_iff in Hw as [Ha Hw].
  apply negb_true_iff in Ha.
  rewrite append_cons. cbn [FieldsFuncGo]. rewrite Ha.
  by rewrite FieldsFuncGo_word_some.
Qed.

Lemma validLabel_inv (l : Label) :
  validLabel l = true ->
  Name l <> "" /\ noSep (Name l) = true /\ Value l <> "" /\ noSep (Value l) = true.
Proof.
  unfold validLabel. rewrite !andb_true_iff, !negb_true_iff, !String.eqb_neq. tauto.
Qed.

Lemma FieldsFuncGo_label (l : Label) (rest : string) :
  validLabel l = true ->
  FieldsFuncGo isLabelSep (labelText l ++ rest) None
  = Name l :: FieldsFuncGo isLabelSep rest (Some (Value l)).
Proof.
  intros (Hn & Hns & Hv & Hvs)%validLabel_inv. unfold labelText.
  rewrite append_assoc, FieldsFuncGo_word_none by done.
  rewrite append_assoc, append_cons, append_nil_l.
  rewrite FieldsFuncGo_sep by done.
  by rewrite FieldsFuncGo_word_none.
Qed.

Lemma labelsText_cons (l l' : Label) (ls : list Label) :
  labelsText (l :: l' :: ls) = labelText l ++ "," ++ labelsText (l' :: ls).
Proof. reflexivity. Qed.

(** [FieldsFunc] reads the text of valid labels back, word by word. *)
Lemma FieldsFunc_labelsText (ls : list Label) :
  forallb validLabel ls = true ->
  FieldsFunc (labelsText ls) isLabelSep = labelWords ls.
Proof.
  unfold FieldsFunc.
  induction ls as [|l ls IH]; [done|]. intros [Hl Hls]%andb_true_iff.
  destruct ls as [|l' ls].
  - change (labelsText [l]) with (labelText l).
    rewrite <- (append_nil_r (labelText l)), FieldsFuncGo_label by done. done.
  - rewrite labelsText_cons, FieldsFuncGo_label by done.
    rewrite append_cons, append_nil_l, FieldsFuncGo_sep by done.
    rewrite IH by done. done.
Qed.

Lemma labelsText_len (ls : list Label) :
  forallb validLabel ls = true -> ls <> [] -> 0 < len (labelsText ls).
Proof.
  destruct ls as [|l ls]; [done|]. intros [Hl _]%andb_true_iff _.
  apply validLabel_inv in Hl as (Hn & _).
  assert (0 < len (labelText l)) as Hpos.
  { unfold labelText. rewrite len_app. destruct (Name l) as [|a nm]; [done|].
    rewrite len_cons.
    pose proof (len_nonneg nm). pose proof (len_nonneg ("=" ++ Value l)). lia. }
  destruct ls as [|l' ls]; [done|].
  rewrite labelsText_cons, len_app.
  pose proof (len_nonneg ("," ++ labelsText (l' :: ls))). lia.
Qed.

End StringsFacts.

(** ** The label loop *)

Lemma appendLabels_labelWords (acc ls : list Label) :
  appendLabels acc (labelWords ls) = Returned (acc ++ ls)%list.
Proof.
  revert acc. induction ls as [|[k v] ls IH]; intros acc.
  - by rewrite app_nil_r.
  - cbn [labelWords flat_map app appendLabels Name Value].
    change (flat_map _ ls) with (labelWords ls).
    rewrite IH. by rewrite <- app_assoc.
Qed.

Lemma lenS_labelWords (ls : list Label) : lenS (labelWords ls) = 2 * lenS ls.
Proof.
  unfold lenS. induction ls as [|l ls IH]; [done|].
  cbn [labelWords flat_map app List.length]. fold (labelWords ls). lia.
Qed.

Lemma rem2_odd (z : Z) : 0 <= z -> negb (Z.rem z 2 =? 0) = Z.odd z.
Proof.
  intros Hz. rewrite Z.rem_mod_nonneg by lia. rewrite Zmod_odd.
  by destruct (Z.odd z).
Qed.

(** ** [strconv.ParseUint] stays within [uint64] *)

Lemma wrap64_range (z : Z) : 0 <= wrap64 z < 2 ^ 64.
Proof. unfold wrap64. apply Z.mod_pos_bound. lia. Qed.

Lemma parseLoop_range (s0 s : string) (base cutoff maxVal n r : Z) :
  0 <= n < 2 ^ 64 ->
  strconv.parseLoop s0 base cutoff maxVal s n = (r, None) ->
  0 <= r < 2 ^ 64.
Proof.
  revert n. induction s as [|a s IH]; intros n Hn; cbn [strconv.parseLoop].
  - by intros [= <-].
  - cbv zeta.
    repeat match goal with
           | |- context [match ?x with _ => _ end] =>
               lazymatch x with
               | context [match _ with _ => _ end] => fail
               | _ => destruct x
               end
           end; try done.
    all: apply IH, wrap64_range.
Qed.

Lemma ParseUint_range (s : string) (r : Z) :
  strconv.ParseUint s 10 64 = (r, None) -> 0 <= r < 2 ^ 64.
Proof.
  unfold strconv.ParseUint. destruct (String.eqb s ""); [done|].
  apply parseLoop_range. lia.
Qed.

(** ** Query validation: [readParams] *)

Ltac go_step := cbn [mbind outcome_bind index0 mret outcome_ret].

(** Validation ends within [uint64] on both bounds. *)
Lemma readParams_uint64 (qsv : gmap string (list string)) (p : params) :
  readParams qsv = Returned (p, None) ->
  0 <= start p < 2 ^ 64 /\ 0 <= end_ p < 2 ^ 64.
Proof.
  unfold readParams.
  destruct (qsv !! "from") as [[|f rf]|]; go_step; try done.
  destruct (strconv.ParseUint f 10 64) as [s [e|]] eqn:Hpf; [done|].
  apply ParseUint_range in Hpf.
  destruct (qsv !! "name") as [[|v rn]|]; go_step; try done.
  match goal with
  | |- context [mbind _ ?blk] => destruct blk as [[[i ls]|e]|]
  end; go_step; try done.
  destruct (slice v 0 i) as [nm|]; go_step; [|done].
  destruct (qsv !! "until") as [[|u ru]|]; go_step; try done.
  destruct (strconv.ParseUint u 10 64) as [e' [e|]] eqn:Hpu; [done|].
  apply ParseUint_range in Hpu. by intros [= <-].
Qed.

(** C5. For every valid label expression [name{k1=v1,k2=v2,...}] the
    parser returns the application name without the [{...}] suffix and
    exactly the listed pairs, in source order and with duplicates kept;
    for [name{}] and for [name] without a brace it returns the name and
    no labels. *)
Theorem readParams_labels_in_order
    (qsv : gmap string (list string)) (f u app : string) (rf ru rn : list string)
    (s e : Z) (kvs : list Label) :
  qsv !! "from" = Some (f :: rf) ->
  strconv.ParseUint f 10 64 = (s, None) ->
  qsv !! "until" = Some (u :: ru) ->
  strconv.ParseUint u 10 64 = (e, None) ->
  GoStrings.Index app "{" = -1 ->
  forallb validLabel kvs = true ->
  (qsv !! "name" = Some ((app ++ "{" ++ labelsText kvs ++ "}") :: rn) ->
   readParams qsv
   = Returned ({| start := s; end_ := e; name := app; labels := kvs |}, None))
  /\ (qsv !! "name" = Some ((app ++ "{}") :: rn) ->
      readParams qsv
      = Returned ({| start := s; end_ := e; name := app; labels := [] |}, None))
  /\ (qsv !! "name" = Some (app :: rn) ->
      readParams qsv
      = Returned ({| start := s; end_ := e; name := app; labels := [] |}, None)).
Proof.
  intros Hfrom Hpf Huntil Hpu Happ Hvalid.
  assert (Hbrace : forall blk,
    qsv !! "name" = Some ((app ++ "{" ++ blk ++ "}") :: rn) ->
    readParams qsv =
    (if len blk >? 0 then
       let words := GoStrings.FieldsFunc blk isLabelSep in
       if (lenS words =? 0) || negb (Z.rem (lenS words) 2 =? 0)
       then Returned ({| start := s; end_ := 0; name := ""; labels := [] |},
                      Some (errorString "failed to compile labels"))
       else ls ← appendLabels [] words;
            Returned ({| start := s; end_ := e; name := app; labels := ls |}, None)
     else Returned ({| start := s; end_ := e; name := app; labels := [] |}, None))).
  { intros blk Hname.
    pose proof (len_nonneg app) as Hla.
    assert (Hidx : GoStrings.Index (app ++ "{" ++ blk ++ "}") "{" = len app).
    { unfold GoStrings.Index.
      change ("{" ++ blk ++ "}") with (String "{" (blk ++ "}")).
      rewrite IndexFrom_first by done. lia. }
    assert (Hblk : slice (app ++ "{" ++ blk ++ "}") (len app + 1)
                     (len (app ++ "{" ++ blk ++ "}") - 1) = Returned blk).
    { rewrite <- (append_assoc app "{"), <- (slice_middle (app ++ "{") blk "}").
      f_equal; rewrite !len_app; change (len "{") with 1; change (len "}") with 1; lia. }
    unfold readParams.
    rewrite Hfrom. go_step. rewrite Hpf, Hname. go_step.
    rewrite Hidx, Hblk.
    replace (len app <? 0) with false by (symmetry; apply Z.ltb_ge; lia).
    go_step. destruct (len blk >? 0); cbn zeta.
    - destruct ((lenS _ =? 0) || _); [done|].
      destruct (appendLabels _ _); go_step; [|done].
      rewrite slice_prefix. go_step.
      by rewrite Huntil; go_step; rewrite Hpu.
    - go_step. rewrite slice_prefix. go_step.
      by rewrite Huntil; go_step; rewrite Hpu. }
  split; [|split].
  - intros Hname. rewrite (Hbrace _ Hname).
    destruct kvs as [|kv kvs]; [done|].
    pose proof (labelsText_len (kv :: kvs) Hvalid ltac:(done)) as Hlen.
    replace (len _ >? 0) with true by (symmetry; apply Z.gtb_lt; lia).
    cbn zeta. rewrite FieldsFunc_labelsText, lenS_labelWords by done.
    rewrite appendLabels_labelWords.
    replace (2 * lenS (kv :: kvs) =? 0) with false
      by (symmetry; apply Z.eqb_neq; unfold lenS; cbn [List.length]; lia).
    rewrite Z.mul_comm, Z.rem_mul by lia. done.
  - intros Hname. by rewrite (Hbrace "" Hname).
  - intros Hname. unfold readParams.
    rewrite Hfrom. go_step. rewrite Hpf, Hname. go_step.
    rewrite Happ. cbn [Z.ltb Z.compare]. go_step.
    rewrite <- (append_nil_r app) at 1. rewrite slice_prefix. go_step.
    by rewrite Huntil; go_step; rewrite Hpu.
Qed.

(** C1 (the code departs from the claim).  When the first [{] of the
    [name] value is its last byte, as in [name=app{], the slice
    [tmp[0][i+1 : length-1]] has its low bound above its high bound and
    [readParams] panics instead of returning params or an error. *)
Theorem readParams_trailing_brace_panics
    (qsv : gmap string (list string)) (f v : string) (rf rn : list string) (s : Z) :
  qsv !! "from" = Some (f :: rf) ->
  strconv.ParseUint f 10 64 = (s, None) ->
  qsv !! "name" = Some (v :: rn) ->
  0 <= GoStrings.Index v "{" ->
  GoStrings.Index v "{" = len v - 1 ->
  readParams qsv = Panicked.
Proof.
  intros Hfrom Hpf Hname Hi Hlast. unfold readParams.
  rewrite Hfrom. go_step. rewrite Hpf, Hname. go_step.
  replace (GoStrings.Index v "{" <? 0) with false by (symmetry; apply Z.ltb_ge; lia).
  rewrite Hlast. unfold slice.
  replace (len v - 1 + 1 <=? len v - 1) with false by (symmetry; apply Z.leb_gt; lia).
  by rewrite andb_false_r.
Qed.

(** C4 (the code departs from the claim).  A [name] value with an empty
    application name, [{a=b}] or the empty value, passes validation: the
    params come back without an error and with the empty name. *)
Theorem readParams_accepts_empty_name :
  readParams (query3 "1000" "{a=b}" "2000")
  = Returned ({| start := 1000; end_ := 2000; name := "";
                 labels := [{| Name := "a"; Value := "b" |}] |}, None)
  /\ readParams (query3 "1000" "" "2000")
     = Returned ({| start := 1000; end_ := 2000; name := ""; labels := [] |}, None).
Proof. split; vm_compute; reflexivity. Qed.

(** A label block with an odd number of words ends validation with the
    label error, before any label is stored. *)
Lemma readParams_odd_words
    (qsv : gmap string (list string)) (f v blk : string) (rf rn : list string) (s : Z) :
  qsv !! "from" = Some (f :: rf) ->
  strconv.ParseUint f 10 64 = (s, None) ->
  qsv !! "name" = Some (v :: rn) ->
  0 <= GoStrings.Index v "{" ->
  slice v (GoStrings.Index v "{" + 1) (len v - 1) = Returned blk ->
  blk <> "" ->
  Z.odd (lenS (GoStrings.FieldsFunc blk isLabelSep)) = true ->
  readParams qsv
  = Returned ({| start := s; end_ := 0; name := ""; labels := [] |},
              Some (errorString "failed to compile labels")).
Proof.
  intros Hfrom Hpf Hname Hi Hblk Hne Hodd. unfold readParams.
  rewrite Hfrom. go_step. rewrite Hpf, Hname. go_step.
  replace (GoStrings.Index v "{" <? 0) with false by (symmetry; apply Z.ltb_ge; lia).
  rewrite Hblk. go_step.
  assert (0 < len blk).
  { pose proof (len_nonneg blk).
    destruct (decide (len blk = 0)) as [->%len_zero|]; [done|lia]. }
  replace (len blk >? 0) with true by (symmetry; apply Z.gtb_lt; lia).
  cbn zeta. rewrite rem2_odd, Hodd by (unfold lenS; lia).
  by rewrite orb_true_r.
Qed.

(** The texts of the six failures tell them apart, whatever follows. *)
Lemma failureMessage_inj (f g : failure) (r r' : string) :
  failureMessage f ++ r = failureMessage g ++ r' -> f = g.
Proof. destruct f, g; cbv [failureMessage]; intros H; try done; by inversion H. Qed.

Section ErrorTexts.

Variable Quote : string -> string.

Ltac until_stage Quote :=
  match goal with
  | |- context [?q !! "until"] =>
      let u := fresh "u" in
      let ru := fresh "ru" in
      let Hpu := fresh "Hpu" in
      destruct (q !! "until") as [[|u ru]|] eqn:?; go_step; [done| |]; cycle 1;
      [ intros [= <- <-]; by exists MissingUntil, ""
      | destruct (strconv.ParseUint u 10 64) as [? [?e|]] eqn:Hpu; [|done];
        intros [= <- <-]; exists UnparseableUntil, (Error Quote e);
        split; [|done]; exists u, ru, e; by rewrite Hpu ]
  end.

(** Every error of [readParams] is one of the six failures and starts
    with that failure's text. *)
Lemma readParams_failure (qsv : gmap string (list string)) (p : params) (err : error) :
  readParams qsv = Returned (p, Some err) ->
  exists mode rest, failsWith qsv mode /\ Error Quote err = failureMessage mode ++ rest.
Proof.
  unfold readParams.
  destruct (qsv !! "from") as [[|f rf]|] eqn:Hfrom; go_step; [done| |]; cycle 1.
  { intros [= <- <-]. by exists MissingFrom, "". }
  destruct (strconv.ParseUint f 10 64) as [s [e|]] eqn:Hpf.
  { intros [= <- <-]. exists UnparseableFrom, (Error Quote e). split; [|done].
    exists f, rf, e. by rewrite Hpf. }
  destruct (qsv !! "name") as [[|v rn]|] eqn:Hname; go_step; [done| |]; cycle 1.
  { intros [= <- <-]. by exists MissingName, "". }
  destruct (GoStrings.Index v "{" <? 0) eqn:Hi; go_step.
  - destruct (slice v 0 (len v)) as [nm|]; go_step; [|done].
    until_stage Quote.
  - destruct (slice v (GoStrings.Index v "{" + 1) (len v - 1)) as [blk|] eqn:Hblk;
      go_step; [|done].
    destruct (len blk >? 0) eqn:Hlen; cbn zeta.
    + destruct ((lenS _ =? 0) || _) eqn:Hsz; go_step.
      * intros [= <- <-]. exists MalformedLabels, "". split; [|done].
        exists v, rn, blk. split_and!; [done|done| |].
        { by intros ->. }
        cbn zeta. apply orb_true_iff in Hsz as [Hz%Z.eqb_eq|Hodd]; [by left|right].
        by rewrite <- rem2_odd by (unfold lenS; lia).
      * destruct (appendLabels _ _) as [ls|]; go_step; [|done].
        destruct (slice v 0 _) as [nm|]; go_step; [|done].
        until_stage Quote.
    + go_step.
      destruct (slice v 0 _) as [nm|]; go_step; [|done].
      until_stage Quote.
Qed.

End ErrorTexts.

(** ** Record assembly: [readProfiles] *)

Ltac io_step :=
  cbn [mbind io_bind mret io_ret emit lift fst snd app index0
       writeResponse writeResponseNoContent handleError].

(** Case analysis on the next stage of a computation. *)
Ltac stage :=
  match goal with
  | |- context [match ?x with _ => _ end] =>
      lazymatch x with
      | context [match _ with _ => _ end] => fail
      | _ => destruct x eqn:?
      end
  end; io_step.

Lemma setAttrsFromProfile_ok (pr : profile_types.ProfileIR) (m : gmap string pcommon.Value) :
  exists m', setAttrsFromProfile pr m = (m', None)
             /\ m' !! "duration_ns" = m !! "duration_ns".
Proof.
  eexists. split; [reflexivity|].
  by rewrite !lookup_insert_ne by done.
Qed.

Lemma paramAttrs_duration (pm : params) :
  paramAttrs pm !! "duration_ns" = Some (pcommon.ValueStr (durationText pm)).
Proof.
  unfold paramAttrs. cbn zeta.
  rewrite !lookup_insert_ne by done. by rewrite lookup_insert_eq.
Qed.

(** The loop never fails: it adds one record per profile, each with the
    duration text. *)
Lemma appendRecords_ok (pm : params) (ps : list profile_types.ProfileIR)
    (rs : list plog.LogRecord) (sz : Z) :
  exists rs' sz',
    appendRecords pm ps rs sz = ((rs ++ rs')%list, sz', None)
    /\ List.length rs' = List.length ps
    /\ Forall (fun r => plog.Attributes r !! "duration_ns"
                        = Some (pcommon.ValueStr (durationText pm))) rs'.
Proof.
  revert rs sz. induction ps as [|pr ps IH]; intros rs sz.
  - exists [], sz. by rewrite app_nil_r.
  - cbn [appendRecords].
    destruct (setAttrsFromProfile_ok pr (paramAttrs pm)) as (m' & -> & Hm').
    destruct (IH (rs ++ [{| plog.Timestamp := ns (start pm); plog.Attributes := m';
                            plog.Body := profile_types.Payload pr |}])%list
                 (sz + len (profile_types.Payload pr))) as (rs' & sz' & -> & Hlen & Hall).
    eexists (_ :: rs'), sz'. rewrite <- app_assoc. split; [done|].
    split; [by cbn; rewrite Hlen|].
    constructor; [|done]. cbn. by rewrite Hm', paramAttrs_duration.
Qed.

(** Once the parser is called, what [readProfiles] returns is decided by
    the parser's answer. *)
Lemma readProfiles_parse_inv (recv : pyroscopeReceiver) (req : Request) (pm : params)
    (buf : string) (md : profile_types.Metadata) :
  In (CallParse buf md) (fst (readProfiles recv req pm)) ->
  exists f,
    readProfiles recv req pm =
    match Parse recv buf md with
    | (_, Some err) =>
        (bodyPrefix pm f buf md,
         Returned (plog.NewLogs, Some (wrapError "failed to parse pprof: " err)))
    | (ps, None) =>
        match appendRecords pm ps [] 0 with
        | (rs, _, Some err) => (bodyPrefix pm f buf md, Returned ([[rs]], Some err))
        | (rs, sz, None) =>
            ((bodyPrefix pm f buf md
              ++ [ParsedBodyUncompressedSizeBytes sz (name pm) formatPprof ""])%list,
             Returned ([[rs]], None))
        end
    end.
Proof.
  unfold readProfiles, openMultipartJfr. io_step.
  repeat stage.
  all: intros Hin; cbn in Hin.
  all: repeat (destruct Hin as [Hin|Hin]; [try discriminate|]); try done.
  all: simplify_eq.
  all: repeat match goal with
         | H1 : ?x = _, H2 : ?x = _ |- _ => rewrite H1 in H2; simplify_eq
         end.
  all: by eexists.
Qed.

Lemma readProfiles_unsupported (recv : pyroscopeReceiver) (req : Request) (pm : params) :
  (Query req !! "format" = None
   \/ exists v rest, Query req !! "format" = Some (v :: rest) /\ v <> "jfr") ->
  readProfiles recv req pm
  = ([], Returned (plog.NewLogs, Some (errorString unsupportedFormat))).
Proof.
  intros [Hq|(v & rest & Hq & Hv)]; unfold readProfiles; rewrite Hq; [done|].
  io_step. apply String.eqb_neq in Hv. by rewrite Hv.
Qed.

(** The logs [readProfiles] returns are empty or one list of records,
    all with the duration text. *)
Lemma readProfiles_records (recv : pyroscopeReceiver) (req : Request) (pm : params)
    (t : list event) (logs : plog.Logs) (err : option error) :
  readProfiles recv req pm = (t, Returned (logs, err)) ->
  logs = plog.NewLogs
  \/ exists rs, logs = [[rs]]
                /\ Forall (fun r => plog.Attributes r !! "duration_ns"
                                    = Some (pcommon.ValueStr (durationText pm))) rs.
Proof.
  unfold readProfiles, openMultipartJfr. io_step.
  repeat stage.
  all: intros [= <- <- <-]; try (by left).
  all: right; eexists; split; [done|].
  all: match goal with
       | H : appendRecords ?pm' ?ps [] 0 = _ |- _ =>
           destruct (appendRecords_ok pm' ps [] 0) as (rs' & sz' & Hrs & _ & Hall);
           rewrite Hrs in H; by simplify_eq
       end.
Qed.

(** ** The request handler: [handle] *)

Section HandlerFacts.

Variable Quote : string -> string.

Lemma handle_bad_query (recv : pyroscopeReceiver) (req : Request)
    (p : params) (err : error) :
  readParams (Query req) = Returned (p, Some err) ->
  handle Quote recv req
  = ([HttpRequestTotal "" errorCodeError;
      HttpResponseTimeMillis Unix "" errorCodeError;
      LogError "bad url query";
      WriteResponse "text/plain" StatusBadRequest (Some "bad url query")],
     Returned tt).
Proof. intros H. unfold handle. rewrite H. reflexivity. Qed.

(** A panic of [readParams] is a panic of the goroutine. *)
Lemma handle_query_panics (recv : pyroscopeReceiver) (req : Request) :
  readParams (Query req) = Panicked -> handle Quote recv req = ([], Panicked).
Proof. intros H. unfold handle. rewrite H. reflexivity. Qed.

Lemma handle_readProfiles_error (recv : pyroscopeReceiver) (req : Request)
    (pm : params) (t : list event) (logs : plog.Logs) (err : error) :
  readParams (Query req) = Returned (pm, None) ->
  Method req = "POST" ->
  readProfiles recv req pm = (t, Returned (logs, Some err)) ->
  handle Quote recv req
  = ((t ++ [HttpRequestTotal (name pm) errorCodeError;
            HttpResponseTimeMillis Unix (name pm) errorCodeError;
            LogError (Error Quote err);
            WriteResponse "text/plain" StatusBadRequest (Some (Error Quote err))])%list,
     Returned tt).
Proof.
  intros Hp Hm Hr. unfold handle. rewrite Hp, Hm. io_step. rewrite Hr. done.
Qed.

(** The whole run of a request whose parser returns no profile. *)
Lemma handle_zero_records (recv : pyroscopeReceiver) (req : Request) (pm : params)
    (buf : string) (md : profile_types.Metadata) :
  readParams (Query req) = Returned (pm, None) ->
  Method req = "POST" ->
  In (CallParse buf md) (fst (readProfiles recv req pm)) ->
  Parse recv buf md = ([], None) ->
  exists f,
    handle Quote recv req
    = ((bodyPrefix pm f buf md
        ++ [ParsedBodyUncompressedSizeBytes 0 (name pm) formatPprof "";
            WriteResponse "" StatusNoContent None])%list,
       Returned tt).
Proof.
  intros Hp Hm Hin Hparse.
  destruct (readProfiles_parse_inv recv req pm buf md Hin) as [f Hr].
  rewrite Hparse in Hr. cbn [appendRecords] in Hr.
  exists f. unfold handle. rewrite Hp, Hm. io_step. rewrite Hr. done.
Qed.

(** Every run of [handle] that returns reports one request and one
    latency, except the run that answers 204 without delegating, which
    reports neither. *)
Lemma handle_metrics (recv : pyroscopeReceiver) (req : Request) :
  snd (handle Quote recv req) = Returned tt ->
  let t := fst (handle Quote recv req) in
  (count isRequestTotal t = 1%nat /\ count isResponseTime t = 1%nat)
  \/ (count isRequestTotal t = 0%nat /\ count isResponseTime t = 0%nat
      /\ responses t = [("", StatusNoContent, None)]
      /\ count isConsumeLogs t = 0%nat).
Proof.
  unfold handle, readProfiles, openMultipartJfr. io_step.
  repeat stage.
  all: cbn; intros; try done; auto.
Qed.

(** C2 (the code departs from the claim).  The zero-record outcome
    answers 204 through an early return that emits no request-count
    observation and no latency observation; the claim asks for exactly
    one of each. *)
Theorem zero_records_emit_no_request_metrics
    (recv : pyroscopeReceiver) (req : Request) (pm : params)
    (buf : string) (md : profile_types.Metadata) :
  readParams (Query req) = Returned (pm, None) ->
  Method req = "POST" ->
  In (CallParse buf md) (fst (readProfiles recv req pm)) ->
  Parse recv buf md = ([], None) ->
  let t := fst (handle Quote recv req) in
  snd (handle Quote recv req) = Returned tt
  /\ responses t = [("", StatusNoContent, None)]
  /\ count isRequestTotal t = 0%nat
  /\ count isResponseTime t = 0%nat.
Proof.
  intros Hp Hm Hin Hparse.
  destruct (handle_zero_records recv req pm buf md Hp Hm Hin Hparse) as [f ->].
  by cbn.
Qed.

(** C8. When the profile parser returns zero records the handler
    answers [204 No Content], hands no batch to the downstream
    consumer, and reports no error: no error log entry, no metric
    with the error code, no error status. *)
Theorem zero_records_no_content
    (recv : pyroscopeReceiver) (req : Request) (pm : params)
    (buf : string) (md : profile_types.Metadata) :
  readParams (Query req) = Returned (pm, None) ->
  Method req = "POST" ->
  In (CallParse buf md) (fst (readProfiles recv req pm)) ->
  Parse recv buf md = ([], None) ->
  let t := fst (handle Quote recv req) in
  snd (handle Quote recv req) = Returned tt
  /\ responses t = [("", StatusNoContent, None)]
  /\ count isConsumeLogs t = 0%nat
  /\ count isErrorReport t = 0%nat.
Proof.
  intros Hp Hm Hin Hparse.
  destruct (handle_zero_records recv req pm buf md Hp Hm Hin Hparse) as [f ->].
  by cbn.
Qed.

(** C9. When [format] is absent or its value is not [jfr],
    [readProfiles] fails with the unsupported-format error before it
    does anything else, and the handler answers 400 with that text;
    multipart extraction, decompression and profile parsing are not
    attempted. *)
Theorem unsupported_format_rejected
    (recv : pyroscopeReceiver) (req : Request) (pm : params) :
  readParams (Query req) = Returned (pm, None) ->
  Method req = "POST" ->
  (Query req !! "format" = None
   \/ exists v rest, Query req !! "format" = Some (v :: rest) /\ v <> "jfr") ->
  let t := fst (handle Quote recv req) in
  readProfiles recv req pm
  = ([], Returned (plog.NewLogs,
                   Some (errorString "unsupported format, supported: [jfr]")))
  /\ responses t
     = [("text/plain", StatusBadRequest, Some "unsupported format, supported: [jfr]")]
  /\ count isBodyWork t = 0%nat.
Proof.
  intros Hp Hm Hfmt.
  pose proof (readProfiles_unsupported recv req pm Hfmt) as Hr.
  split; [done|].
  by rewrite (handle_readProfiles_error recv req pm _ _ _ Hp Hm Hr).
Qed.

(** When the slice the code takes as label block, from after the
    first [{] to before the last byte, is non-empty and splits on [=]
    and [,] into an odd number of words, validation fails with the
    label error, the params returned with it carry no label, and the
    handler rejects the request with a 400 response without touching
    the body. *)
Theorem odd_label_tokens_rejected
    (recv : pyroscopeReceiver) (req : Request)
    (f v blk : string) (rf rn : list string) (s : Z) :
  Query req !! "from" = Some (f :: rf) ->
  strconv.ParseUint f 10 64 = (s, None) ->
  Query req !! "name" = Some (v :: rn) ->
  0 <= GoStrings.Index v "{" ->
  slice v (GoStrings.Index v "{" + 1) (len v - 1) = Returned blk ->
  blk <> "" ->
  Z.odd (lenS (GoStrings.FieldsFunc blk isLabelSep)) = true ->
  let t := fst (handle Quote recv req) in
  (exists p, readParams (Query req)
             = Returned (p, Some (errorString "failed to compile labels"))
             /\ labels p = [])
  /\ responses t = [("text/plain", StatusBadRequest, Some "bad url query")]
  /\ count isBodyWork t = 0%nat
  /\ count isConsumeLogs t = 0%nat.
Proof.
  intros Hfrom Hpf Hname Hi Hblk Hne Hodd.
  pose proof (readParams_odd_words _ _ _ _ _ _ _ Hfrom Hpf Hname Hi Hblk Hne Hodd) as Hr.
  split; [by eexists|].
  by rewrite (handle_bad_query recv req _ _ Hr).
Qed.

(** C3 (the code departs from the claim).  Whenever query validation
    fails, in any of the six ways, [handle] drops the error
    [readParams] returns: the response is the client error 400 with
    the one plain-text body [bad url query], although the error starts
    with the text of exactly one failure, the one that occurred. *)
Theorem bad_query_response
    (recv : pyroscopeReceiver) (req : Request) (p : params) (err : error) :
  readParams (Query req) = Returned (p, Some err) ->
  responses (fst (handle Quote recv req))
  = [("text/plain", StatusBadRequest, Some "bad url query")]
  /\ exists mode rest,
       failsWith (Query req) mode
       /\ Error Quote err = failureMessage mode ++ rest
       /\ forall mode' rest',
            Error Quote err = failureMessage mode' ++ rest' -> mode' = mode.
Proof.
  intros Hr. split; [by rewrite (handle_bad_query recv req _ _ Hr)|].
  destruct (readParams_failure Quote _ _ _ Hr) as (mode & rest & Hmode & Herr).
  exists mode, rest. split_and!; [done|done|].
  intros mode' rest' Herr'. rewrite Herr in Herr'.
  symmetry. by eapply failureMessage_inj.
Qed.

End HandlerFacts.

(** ** The handler racing the goroutine: [httpHandlerIngest] *)

Section Race.

Variable Quote : string -> string.
Variable recv : pyroscopeReceiver.
Variable req : Request.

Lemma eventsOf_app (th : thread) (t t' : list (thread * event)) :
  eventsOf th (t ++ t') = (eventsOf th t ++ eventsOf th t')%list.
Proof. apply omap_app. Qed.

Lemma eventsOf_same (th : thread) (t : list event) :
  eventsOf th (map (pair th) t) = t.
Proof. induction t as [|e t IH]; [done|]. destruct th; cbn; by f_equal. Qed.

Lemma eventsOf_other (th th' : thread) (t : list event) :
  th <> th' -> eventsOf th (map (pair th') t) = [].
Proof. intros Hne. induction t as [|e t IH]; [done|]. by destruct th, th'. Qed.

Lemma inv_init : inv Quote recv req init.
Proof. by split. Qed.

Lemma inv_step (s s' : state) :
  inv Quote recv req s -> step Quote recv req s s' -> inv Quote recv req s'.
Proof.
  intros [Hg Hh] Hstep.
  destruct Hstep as [s e He|s Hd|s Hsel Hd|s Hsel Hfin]; split;
    cbn [trace emitted handler]; try done.
  - rewrite eventsOf_app, Hg. by rewrite (take_S_r _ _ _ He).
  - rewrite eventsOf_app, Hh. apply app_nil_r.
  - rewrite eventsOf_app, Hg, (eventsOf_other Goroutine Handler) by done.
    apply app_nil_r.
  - by rewrite eventsOf_app, Hh, Hsel, eventsOf_same.
  - by rewrite Hh, Hsel.
Qed.

Lemma inv_reachable (s : state) : reachable Quote recv req s -> inv Quote recv req s.
Proof.
  unfold reachable. intros Hr.
  revert s Hr.
  apply (rtc_ind_r (R := step Quote recv req) (inv Quote recv req) init);
    [apply inv_init|].
  intros y z _ Hyz Hy. by eapply inv_step.
Qed.

(** When the handler's [select] takes the deadline branch, the
    handler answers [408 Request Timeout] with the timeout text; the
    goroutine is not stopped: what it has emitted is a prefix of the
    events of [handle], and its next event, the downstream delegation
    included, stays enabled after the timeout. *)
Theorem timeout_race (s : state) :
  reachable Quote recv req s ->
  handler s = TimedOut ->
  responses (eventsOf Handler (trace s))
  = [("text/plain", StatusRequestTimeout,
      Some ("receiver timeout elapsed: " ++ Timeout recv))]
  /\ eventsOf Goroutine (trace s) = take (emitted s) (script Quote recv req)
  /\ forall e, script Quote recv req !! emitted s = Some e ->
       exists s', step Quote recv req s s'
                  /\ handler s' = TimedOut
                  /\ trace s' = (trace s ++ [(Goroutine, e)])%list.
Proof.
  intros [Hg Hh]%inv_reachable Ht. rewrite Ht in Hh. split_and!.
  - by rewrite Hh.
  - done.
  - intros e He. eexists. split; [by apply step_work|]. done.
Qed.

End Race.

(** ** The properties at concrete inputs *)

Lemma lateState_reachable : reachable QuotePlain lateRecv lateReq lateState.
Proof.
  unfold reachable.
  do 5 (eapply rtc_l; [apply step_work; vm_compute; reflexivity|]).
  eapply rtc_l; [by apply step_deadline|].
  eapply rtc_l; [by apply step_timeout|].
  do 2 (eapply rtc_l; [apply step_work; vm_compute; reflexivity|]).
  vm_compute. apply rtc_refl.
Qed.

(** Each of the six failures occurs. *)
Lemma failure_modes_occur (mode : failure) :
  exists qsv p err rest,
    readParams qsv = Returned (p, Some err)
    /\ Error QuotePlain err = failureMessage mode ++ rest.
Proof.
  destruct mode.
  - exists ∅. by eexists _, _, _.
  - exists (query3 "x" "svc" "2000"). by eexists _, _, _.
  - exists (<["from" := ["1"]]> ∅). by eexists _, _, _.
  - exists (query3 "1000" "svc{a=b,c}" "2000"). by eexists _, _, _.
  - exists (<["from" := ["1"]]> (<["name" := ["svc"]]> ∅)). by eexists _, _, _.
  - exists (query3 "1000" "svc" "-1"). by eexists _, _, _.
Qed.

(** C1 at [name=app{]. *)
Lemma readParams_trailing_brace_panics_witness :
  GoStrings.Index "app{" "{" = len "app{" - 1
  /\ readParams (query3 "1000" "app{" "2000") = Panicked.
Proof.
  split; [reflexivity|].
  apply (readParams_trailing_brace_panics
           (query3 "1000" "app{" "2000") "1000" "app{" [] [] 1000);
    vm_compute; congruence.
Defined.

(** C2 at a request whose parser returns no profile. *)
Lemma zero_records_emit_no_request_metrics_witness :
  let t := fst (handle QuotePlain (stubReceiver []) lateReq) in
  Parse (stubReceiver []) "B" {| profile_types.SampleRateHertz := 0 |} = ([], None)
  /\ snd (handle QuotePlain (stubReceiver []) lateReq) = Returned tt
  /\ responses t = [("", StatusNoContent, None)]
  /\ count isRequestTotal t = 0%nat
  /\ count isResponseTime t = 0%nat.
Proof.
  split; [reflexivity|].
  apply (zero_records_emit_no_request_metrics QuotePlain (stubReceiver []) lateReq
           {| start := 1000; end_ := 2000; name := "svc";
              labels := [{| Name := "env"; Value := "prod" |}] |}
           "B" {| profile_types.SampleRateHertz := 0 |}).
  - vm_compute; reflexivity.
  - reflexivity.
  - vm_compute. tauto.
  - reflexivity.
Defined.

(** A query without [from] and a query without [name] fail with
    different error texts, and both are answered with the same body,
    which is neither text. *)
Lemma bad_query_body_is_constant :
  exists p1 e1 p2 e2,
    readParams (Query emptyQueryRequest) = Returned (p1, Some e1)
    /\ readParams (Query fromOnlyRequest) = Returned (p2, Some e2)
    /\ Error QuotePlain e1 = "required start time is missing"
    /\ Error QuotePlain e2 = "required labels are missing"
    /\ responses (fst (handle QuotePlain lateRecv emptyQueryRequest))
       = [("text/plain", StatusBadRequest, Some "bad url query")]
    /\ responses (fst (handle QuotePlain lateRecv fromOnlyRequest))
       = [("text/plain", StatusBadRequest, Some "bad url query")]
    /\ "bad url query" <> Error QuotePlain e1
    /\ "bad url query" <> Error QuotePlain e2.
Proof. eexists _, _, _, _. split_and!; try reflexivity; by vm_compute. Qed.

(** C3 at a query without [from]. *)
Lemma bad_query_response_witness :
  responses (fst (handle QuotePlain lateRecv emptyQueryRequest))
  = [("text/plain", StatusBadRequest, Some "bad url query")].
Proof.
  apply (bad_query_response QuotePlain lateRecv emptyQueryRequest
           {| start := 0; end_ := 0; name := ""; labels := [] |}
           (errorString "required start time is missing")).
  reflexivity.
Defined.

(** C5 at [svc{env=prod,region=eu}]. *)
Lemma readParams_labels_in_order_witness :
  readParams (query3 "1000" "svc{env=prod,region=eu}" "2000")
  = Returned ({| start := 1000; end_ := 2000; name := "svc";
                 labels := [{| Name := "env"; Value := "prod" |};
                            {| Name := "region"; Value := "eu" |}] |}, None).
Proof.
  apply (readParams_labels_in_order
           (query3 "1000" "svc{env=prod,region=eu}" "2000")
           "1000" "2000" "svc" [] [] [] 1000 2000
           [{| Name := "env"; Value := "prod" |};
            {| Name := "region"; Value := "eu" |}]);
    vm_compute; reflexivity.
Defined.

(** The same at [a{a=b,c}], three words. *)
Lemma odd_label_tokens_rejected_witness :
  let req := jfrRequest "POST" (queryJfr "1000" "a{a=b,c}" "2000") in
  lenS (GoStrings.FieldsFunc "a=b,c" isLabelSep) = 3
  /\ responses (fst (handle QuotePlain lateRecv req))
     = [("text/plain", StatusBadRequest, Some "bad url query")].
Proof.
  split; [reflexivity|].
  apply (odd_label_tokens_rejected QuotePlain lateRecv
           (jfrRequest "POST" (queryJfr "1000" "a{a=b,c}" "2000"))
           "1000" "a{a=b,c}" "a=b,c" [] [] 1000);
    vm_compute; congruence.
Defined.

(** C8 at a request whose parser returns no profile. *)
Lemma zero_records_no_content_witness :
  let t := fst (handle QuotePlain (stubReceiver []) lateReq) in
  responses t = [("", StatusNoContent, None)]
  /\ count isConsumeLogs t = 0%nat
  /\ count isErrorReport t = 0%nat.
Proof.
  apply (zero_records_no_content QuotePlain (stubReceiver []) lateReq
           {| start := 1000; end_ := 2000; name := "svc";
              labels := [{| Name := "env"; Value := "prod" |}] |}
           "B" {| profile_types.SampleRateHertz := 0 |}).
  - vm_compute; reflexivity.
  - reflexivity.
  - vm_compute. tauto.
  - reflexivity.
Defined.

(** C9 at [format=foo]. *)
Lemma unsupported_format_rejected_witness :
  let req := jfrRequest "POST" (<["format" := ["foo"]]> (query3 "1000" "svc" "2000")) in
  let t := fst (handle QuotePlain lateRecv req) in
  responses t
  = [("text/plain", StatusBadRequest, Some "unsupported format, supported: [jfr]")]
  /\ count isBodyWork t = 0%nat.
Proof.
  apply (unsupported_format_rejected QuotePlain lateRecv
           (jfrRequest "POST" (<["format" := ["foo"]]> (query3 "1000" "svc" "2000")))
           {| start := 1000; end_ := 2000; name := "svc"; labels := [] |}).
  - vm_compute; reflexivity.
  - reflexivity.
  - right. exists "foo", []. split; [vm_compute; reflexivity|discriminate].
Defined.

(** C10 (the code departs from the claim).  In this run the deadline
    passes while the parser is at work; the handler writes the 408
    response as the ninth event, and the goroutine, which never looks
    at the deadline, goes on to hand the completed batch, one record
    with payload [P], to the consumer as the eleventh. *)
Lemma timeout_then_delegation :
  reachable QuotePlain lateRecv lateReq lateState
  /\ handler lateState = TimedOut
  /\ trace lateState !! 8%nat
     = Some (Handler, WriteResponse "text/plain" StatusRequestTimeout
                        (Some "receiver timeout elapsed: 10s"))
  /\ match trace lateState !! 10%nat with
     | Some (Goroutine, CallConsumeLogs [[[r]]]) => plog.Body r = "P"
     | _ => False
     end.
Proof.
  split; [apply lateState_reachable|].
  split; [reflexivity|].
  split; vm_compute; reflexivity.
Qed.

(** The handler's answer in the same run. *)
Lemma timeout_race_witness :
  handler lateState = TimedOut
  /\ responses (eventsOf Handler (trace lateState))
     = [("text/plain", StatusRequestTimeout, Some "receiver timeout elapsed: 10s")].
Proof.
  split; [reflexivity|].
  apply (timeout_race QuotePlain lateRecv lateReq lateState lateState_reachable eq_refl).
Defined.

(** * Further properties of the code *)

(** ** More on query validation *)

Lemma slice_full (v : string) : slice v 0 (len v) = Returned v.
Proof. rewrite <- (append_nil_r v) at 1. apply slice_prefix. Qed.

(** Where [Index] finds [c], the string splits there, and no [c] comes
    before. *)
Lemma IndexFrom_split (c : ascii) (s : string) (p : Z) :
  0 <= p -> GoStrings.IndexFrom c s p <> -1 ->
  exists a rest, s = a ++ String c rest
                 /\ GoStrings.IndexFrom c s p = p + len a
                 /\ GoStrings.IndexFrom c a 0 = -1.
Proof.
  revert p. induction s as [|x s IH]; intros p Hp; cbn [GoStrings.IndexFrom]; [done|].
  destruct (Ascii.eqb x c) eqn:Hx.
  - apply Ascii.eqb_eq in Hx as ->. intros _. exists "", s.
    change (len "") with 0. split_and!; [done|lia|done].
  - intros Hi. destruct (IH (p + 1) ltac:(lia) Hi) as (a & rest & -> & Hidx & Ha).
    exists (String x a), rest. rewrite len_cons. split_and!; [done|lia|].
    cbn [GoStrings.IndexFrom]. rewrite Hx.
    by apply (IndexFrom_absent c a 0 1).
Qed.

(** What a successful validation read, stage by stage. *)
Lemma readParams_ok_inv (qsv : gmap string (list string)) (p : params) :
  readParams qsv = Returned (p, None) ->
  exists f rf v rn u ru,
    qsv !! "from" = Some (f :: rf)
    /\ strconv.ParseUint f 10 64 = (start p, None)
    /\ qsv !! "name" = Some (v :: rn)
    /\ qsv !! "until" = Some (u :: ru)
    /\ strconv.ParseUint u 10 64 = (end_ p, None)
    /\ ((GoStrings.Index v "{" < 0 /\ name p = v /\ labels p = [])
        \/ (0 <= GoStrings.Index v "{"
            /\ slice v 0 (GoStrings.Index v "{") = Returned (name p)
            /\ exists blk,
                 slice v (GoStrings.Index v "{" + 1) (len v - 1) = Returned blk
                 /\ ((blk = "" /\ labels p = [])
                     \/ (blk <> ""
                         /\ Z.even (lenS (GoStrings.FieldsFunc blk isLabelSep)) = true
                         /\ appendLabels [] (GoStrings.FieldsFunc blk isLabelSep)
                            = Returned (labels p))))).
Proof.
  unfold readParams.
  destruct (qsv !! "from") as [[|f rf]|] eqn:Hfrom; go_step; try done.
  destruct (strconv.ParseUint f 10 64) as [s [e|]] eqn:Hpf; [done|].
  destruct (qsv !! "name") as [[|v rn]|] eqn:Hname; go_step; try done.
  destruct (GoStrings.Index v "{" <? 0) eqn:Hi; go_step.
  - rewrite slice_full. go_step.
    destruct (qsv !! "until") as [[|u ru]|] eqn:Huntil; go_step; try done.
    destruct (strconv.ParseUint u 10 64) as [e' [e|]] eqn:Hpu; [done|].
    intros [= <-]. exists f, rf, v, rn, u, ru. cbn [start end_ name labels].
    split_and!; try done. left. by apply Z.ltb_lt in Hi.
  - apply Z.ltb_ge in Hi.
    destruct (slice v (GoStrings.Index v "{" + 1) (len v - 1)) as [blk|] eqn:Hblk;
      go_step; [|done].
    destruct (len blk >? 0) eqn:Hlen; cbn zeta.
    + destruct ((lenS _ =? 0) || _) eqn:Hsz; go_step; [done|].
      destruct (appendLabels _ _) as [ls|] eqn:Hls; go_step; [|done].
      destruct (slice v 0 _) as [nm|] eqn:Hnm; go_step; [|done].
      destruct (qsv !! "until") as [[|u ru]|] eqn:Huntil; go_step; try done.
      destruct (strconv.ParseUint u 10 64) as [e' [e|]] eqn:Hpu; [done|].
      intros [= <-]. exists f, rf, v, rn, u, ru. cbn [start end_ name labels].
      split_and!; try done. right. split_and!; try done.
      exists blk. split; [done|]. right. split_and!; [by intros ->| |done].
      apply orb_false_iff in Hsz as [_ Hodd]. rewrite rem2_odd in Hodd by (unfold lenS; lia).
      by rewrite <- Z.negb_odd, Hodd.
    + go_step.
      destruct (slice v 0 _) as [nm|] eqn:Hnm; go_step; [|done].
      destruct (qsv !! "until") as [[|u ru]|] eqn:Huntil; go_step; try done.
      destruct (strconv.ParseUint u 10 64) as [e' [e|]] eqn:Hpu; [done|].
      intros [= <-]. exists f, rf, v, rn, u, ru. cbn [start end_ name labels].
      split_and!; try done. right. split_and!; try done.
      exists blk. split; [done|]. left. split; [|done].
      apply len_zero. pose proof (len_nonneg blk). rewrite Z.gtb_ltb in Hlen. apply Z.ltb_ge in Hlen. lia.
Qed.

Lemma noSep_app (a b : string) : noSep (a ++ b) = noSep a && noSep b.
Proof.
  induction a as [|x a IH]; [done|].
  rewrite append_cons. cbn [noSep]. rewrite IH. by rewrite andb_assoc.
Qed.

(** Every field [FieldsFunc] yields is non-empty and free of separators. *)
Lemma FieldsFuncGo_words (s : string) (cur : option string) :
  (forall w, cur = Some w -> w <> "" /\ noSep w = true) ->
  Forall (fun w => w <> "" /\ noSep w = true) (GoStrings.FieldsFuncGo isLabelSep s cur).
Proof.
  revert cur. induction s as [|a s IH]; intros cur Hcur; cbn [GoStrings.FieldsFuncGo].
  - destruct cur as [w|]; [|done]. constructor; [by apply Hcur|done].
  - destruct (isLabelSep a) eqn:Ha.
    + destruct cur as [w|].
      * constructor; [by apply Hcur|]. by apply IH.
      * by apply IH.
    + destruct cur as [w|]; apply IH; intros w' [= <-].
      * destruct (Hcur w eq_refl) as [Hne Hw]. split.
        { by destruct w. }
        rewrite noSep_app, Hw. cbn [noSep]. by rewrite Ha.
      * split; [done|]. cbn [noSep]. by rewrite Ha.
Qed.

Lemma appendLabels_valid (n : nat) (words : list string) (acc ls : list Label) :
  (List.length words <= n)%nat ->
  Forall (fun w => w <> "" /\ noSep w = true) words ->
  forallb validLabel acc = true ->
  appendLabels acc words = Returned ls ->
  forallb validLabel ls = true
  /\ lenS ls = lenS acc + lenS words / 2.
Proof.
  revert words acc. induction n as [|n IH]; intros words acc Hn Hw Hacc.
  - destruct words; [|cbn in Hn; lia]. intros [= <-]. split; [done|].
    change (lenS []) with 0. by rewrite Z.div_0_l, Z.add_0_r.
  - destruct words as [|w [|v rest]]; cbn [appendLabels]; [| done |].
    + intros [= <-]. split; [done|].
      change (lenS []) with 0. by rewrite Z.div_0_l, Z.add_0_r.
    + intros Hls. apply Forall_cons in Hw as [[Hw1 Hw2] Hw].
      apply Forall_cons in Hw as [[Hv1 Hv2] Hw].
      apply IH in Hls as [Hval Hlen]; [|cbn in *; lia|done|].
      * split; [done|]. rewrite Hlen. unfold lenS.
        rewrite length_app. cbn [List.length].
        replace (Z.of_nat (S (S (List.length rest))))
          with (Z.of_nat (List.length rest) + 1 * 2) by lia.
        rewrite Z.div_add by lia. lia.
      * rewrite forallb_app, Hacc. cbn [forallb andb]. rewrite andb_true_r.
        unfold validLabel. cbn [Name Value].
        rewrite Hw2, Hv2, !andb_true_r, andb_true_iff, !negb_true_iff, !String.eqb_neq.
        done.
Qed.

(** X2. Every label of validated params has a non-empty name and a
    non-empty value, both free of [=] and [,]. *)
Theorem readParams_labels_wellformed (qsv : gmap string (list string)) (p : params) :
  readParams qsv = Returned (p, None) ->
  forallb validLabel (labels p) = true.
Proof.
  intros (f & rf & v & rn & u & ru & _ & _ & _ & _ & _ & Hname)%readParams_ok_inv.
  destruct Hname as [(_ & _ & ->)|(_ & _ & blk & _ & [[_ ->]|(_ & _ & Hls)])]; try done.
  eapply (appendLabels_valid _ _ [] _ (le_n _)); [|done|done].
  by apply FieldsFuncGo_words.
Qed.

(** X3. The name of validated params is the part of the [name] value
    before its first [{] (all of it when there is none): it contains no
    [{], and what follows it in the value is empty or starts with [{]. *)
Theorem readParams_name_prefix (qsv : gmap string (list string)) (p : params) :
  readParams qsv = Returned (p, None) ->
  GoStrings.Index (name p) "{" = -1
  /\ exists v rn rest,
       qsv !! "name" = Some (v :: rn)
       /\ v = name p ++ rest
       /\ (rest = "" \/ exists rest', rest = String "{" rest').
Proof.
  intros (f & rf & v & rn & u & ru & _ & _ & Hv & _ & _ & Hname)%readParams_ok_inv.
  destruct Hname as [(Hi & Hn & _)|(Hi & Hnm & _)].
  - rewrite Hn. split.
    + destruct (IndexFrom_range "{" v 0) as [?|?]; [done|].
      unfold GoStrings.Index in Hi. lia.
    + exists v, rn, "". rewrite append_nil_r. eauto.
  - unfold GoStrings.Index in *.
    destruct (IndexFrom_split "{" v 0) as (a & rest & -> & Hidx & Ha); [lia|lia|].
    rewrite Hidx, Z.add_0_l, slice_prefix in Hnm. injection Hnm as <-.
    split; [done|]. exists (a ++ String "{" rest), rn, (String "{" rest). eauto.
Qed.

(** The label block of [app{blk c], whatever the last byte [c] is. *)
Lemma brace_parts (app blk : string) (c : ascii) :
  GoStrings.Index app "{" = -1 ->
  let v := app ++ "{" ++ blk ++ String c "" in
  GoStrings.Index v "{" = len app
  /\ slice v (len app + 1) (len v - 1) = Returned blk
  /\ slice v 0 (len app) = Returned app.
Proof.
  intros Happ v. subst v. pose proof (len_nonneg app). split_and!.
  - unfold GoStrings.Index.
    change ("{" ++ blk ++ String c "") with (String "{" (blk ++ String c "")).
    rewrite IndexFrom_first by done. lia.
  - rewrite <- (append_assoc app "{"), <- (slice_middle (app ++ "{") blk (String c "")).
    f_equal; rewrite !len_app; change (len "{") with 1;
      change (len (String c "")) with 1; lia.
  - apply slice_prefix.
Qed.

(** X4. The last byte of a [name] value with a brace is dropped without
    being looked at: [app{blk] followed by any byte validates exactly
    like [app{blk}]. *)
Theorem readParams_closing_byte_ignored
    (qsv : gmap string (list string)) (app blk : string) (c : ascii) (rn : list string) :
  GoStrings.Index app "{" = -1 ->
  qsv !! "name" = Some ((app ++ "{" ++ blk ++ String c "") :: rn) ->
  readParams qsv = readParams (<["name" := [app ++ "{" ++ blk ++ "}"]]> qsv).
Proof.
  intros Happ Hname.
  destruct (brace_parts app blk c Happ) as (Hi1 & Hb1 & Hn1).
  destruct (brace_parts app blk "}" Happ) as (Hi2 & Hb2 & Hn2).
  cbn zeta in *. change (String "}" "") with "}" in *.
  unfold readParams.
  rewrite (lookup_insert_ne qsv "name" "from"), (lookup_insert_ne qsv "name" "until") by done.
  rewrite lookup_insert_eq, Hname.
  destruct (qsv !! "from") as [[|f rf]|]; go_step; try done.
  destruct (strconv.ParseUint f 10 64) as [s [e|]]; [done|]. go_step.
  rewrite Hi1, Hi2, Hb1, Hb2. pose proof (len_nonneg app).
  replace (len app <? 0) with false by (symmetry; apply Z.ltb_ge; lia).
  go_step. destruct (len blk >? 0); cbn zeta.
  - destruct ((lenS _ =? 0) || _); [done|].
    destruct (appendLabels _ _); go_step; [|done].
    by rewrite Hn1, Hn2.
  - go_step. by rewrite Hn1, Hn2.
Qed.

Lemma readParams_closing_byte_ignored_witness :
  readParams (query3 "1000" "svc{env=prodX" "2000")
  = readParams (<["name" := ["svc{env=prod}"]]> (query3 "1000" "svc{env=prodX" "2000")).
Proof.
  apply (readParams_closing_byte_ignored
           (query3 "1000" "svc{env=prodX" "2000") "svc" "env=prod" "X" []);
    reflexivity.
Defined.

(** X5. Validation is stable under printing: writing validated params
    back as [name{k1=v1,...}] and validating again returns the same
    params. *)
Theorem readParams_reprint (qsv : gmap string (list string)) (p : params) :
  readParams qsv = Returned (p, None) ->
  readParams (<["name" := [name p ++ "{" ++ labelsText (labels p) ++ "}"]]> qsv)
  = Returned (p, None).
Proof.
  intros Hok.
  pose proof Hok as
    (f & rf & v & rn & u & ru & Hf & Hpf & Hv & Hu & Hpu & Hname)%readParams_ok_inv.
  assert (Hnb : GoStrings.Index (name p) "{" = -1).
  { destruct Hname as [(Hi & Hn & _)|(Hi & Hnm & _)].
    - rewrite Hn. destruct (IndexFrom_range "{" v 0) as [?|?]; [done|].
      unfold GoStrings.Index in Hi. lia.
    - unfold GoStrings.Index in *.
      destruct (IndexFrom_split "{" v 0) as (a & rest & -> & Hidx & Ha); [lia|lia|].
      rewrite Hidx, Z.add_0_l, slice_prefix in Hnm. by injection Hnm as <-. }
  assert (Hval : forallb validLabel (labels p) = true).
  { destruct Hname as [(_ & _ & ->)|(_ & _ & blk & _ & [[_ ->]|(_ & _ & Hls)])]; try done.
    eapply (appendLabels_valid _ _ [] _ (le_n _)); [|done|done].
    by apply FieldsFuncGo_words. }
  destruct (brace_parts (name p) (labelsText (labels p)) "}" Hnb) as (Hi & Hb & Hn).
  cbn zeta in *. change (String "}" "") with "}" in *.
  pose proof (len_nonneg (name p)).
  unfold readParams.
  rewrite (lookup_insert_ne qsv "name" "from"), (lookup_insert_ne qsv "name" "until") by done.
  rewrite lookup_insert_eq, Hf. go_step. rewrite Hpf. go_step.
  rewrite Hi, Hb.
  replace (len (name p) <? 0) with false by (symmetry; apply Z.ltb_ge; lia).
  go_step. destruct p as [s e nm ls]. cbn [start end_ name labels] in *.
  destruct ls as [|l ls].
  - change (len (labelsText []) >? 0) with false. go_step. rewrite Hn. go_step.
    by rewrite Hu; go_step; rewrite Hpu.
  - pose proof (labelsText_len (l :: ls) Hval ltac:(done)) as Hlen.
    replace (len _ >? 0) with true by (symmetry; apply Z.gtb_lt; lia).
    cbn zeta. rewrite FieldsFunc_labelsText, lenS_labelWords by done.
    rewrite appendLabels_labelWords.
    replace (2 * lenS (l :: ls) =? 0) with false
      by (symmetry; apply Z.eqb_neq; unfold lenS; cbn [List.length]; lia).
    rewrite Z.mul_comm, Z.rem_mul by lia. cbn [Z.eqb negb orb]. go_step.
    rewrite Hn. go_step.
    by rewrite Hu; go_step; rewrite Hpu.
Qed.

Lemma readParams_reprint_witness :
  let qsv := query3 "1000" "svc{env=prod,,zone==a}" "2000" in
  let p := {| start := 1000; end_ := 2000; name := "svc";
              labels := [{| Name := "env"; Value := "prod" |};
                         {| Name := "zone"; Value := "a" |}] |} in
  readParams qsv = Returned (p, None)
  /\ readParams (<["name" := ["svc{env=prod,zone=a}"]]> qsv) = Returned (p, None).
Proof.
  split; [vm_compute; reflexivity|].
  apply (readParams_reprint (query3 "1000" "svc{env=prod,,zone==a}" "2000")
           {| start := 1000; end_ := 2000; name := "svc";
              labels := [{| Name := "env"; Value := "prod" |};
                         {| Name := "zone"; Value := "a" |}] |}).
  vm_compute; reflexivity.
Defined.

Lemma slice_returns (s : string) (lo hi : Z) :
  0 <= lo <= hi -> hi <= len s -> exists r, slice s lo hi = Returned r.
Proof.
  intros Hlo Hhi. unfold slice.
  replace ((0 <=? lo) && (lo <=? hi) && (hi <=? len s)) with true
    by (symmetry; rewrite !andb_true_iff, !Z.leb_le; lia).
  by eexists.
Qed.

(** The label loop returns on an even number of words. *)
Lemma appendLabels_even (n : nat) (words : list string) (acc : list Label) :
  (List.length words <= n)%nat ->
  Z.rem (lenS words) 2 = 0 ->
  exists ls, appendLabels acc words = Returned ls.
Proof.
  revert words acc. induction n as [|n IH]; intros words acc Hn Hev.
  - destruct words; [by eexists|cbn in Hn; lia].
  - destruct words as [|w [|v rest]]; cbn [appendLabels]; [by eexists|done|].
    apply IH; [cbn in *; lia|].
    unfold lenS in *. cbn [List.length] in Hev.
    rewrite Z.rem_mod_nonneg in * by lia.
    replace (Z.of_nat (S (S (List.length rest))))
      with (Z.of_nat (List.length rest) + 1 * 2) in Hev by lia.
    by rewrite Z.mod_add in Hev by lia.
Qed.

(** X6. [readParams] panics in one situation only, apart from a key
    bound to an empty list of values (which [url.Query] never builds):
    the first [{] of the [name] value is its last byte. *)
Theorem readParams_panics_only (qsv : gmap string (list string)) :
  readParams qsv = Panicked ->
  qsv !! "from" = Some [] \/ qsv !! "name" = Some [] \/ qsv !! "until" = Some []
  \/ exists v rn, qsv !! "name" = Some (v :: rn)
                  /\ 0 <= GoStrings.Index v "{"
                  /\ GoStrings.Index v "{" = len v - 1.
Proof.
  unfold readParams.
  destruct (qsv !! "from") as [[|f rf]|] eqn:Hfrom; go_step; try done; [by left|].
  destruct (strconv.ParseUint f 10 64) as [s [e|]] eqn:Hpf; [done|].
  destruct (qsv !! "name") as [[|v rn]|] eqn:Hname; go_step; try done; [by right; left|].
  assert (Huntil : forall p : params,
    match qsv !! "until" with
    | Some tmp =>
        tmp0 ← index0 tmp;
        match strconv.ParseUint tmp0 10 64 with
        | (_, Some err) =>
            Returned (p, Some (wrapError "failed to parse end time: " err))
        | (end', None) =>
            Returned ({| start := start p; end_ := end'; name := name p;
                         labels := labels p |}, None)
        end
    | None => Returned (p, Some (errorString "required end time is missing"))
    end = Panicked -> qsv !! "until" = Some []).
  { intros p. destruct (qsv !! "until") as [[|u ru]|]; go_step; try done.
    by destruct (strconv.ParseUint u 10 64) as [? [?|]]. }
  pose proof (len_nonneg v) as Hlv.
  destruct (IndexFrom_range "{" v 0) as [Hi|Hi]; fold (GoStrings.Index v "{") in Hi.
  - rewrite Hi. cbn [Z.ltb Z.compare]. go_step. rewrite slice_full. go_step.
    intros H. right; right; left.
    by apply (Huntil {| start := s; end_ := 0; name := v; labels := [] |}).
  - replace (GoStrings.Index v "{" <? 0) with false by (symmetry; apply Z.ltb_ge; lia).
    destruct (slice_returns v 0 (GoStrings.Index v "{")) as [nm Hnm]; [lia|lia|].
    destruct (slice v (GoStrings.Index v "{" + 1) (len v - 1)) as [blk|] eqn:Hblk;
      go_step; cycle 1.
    { intros _. right; right; right. exists v, rn. split_and!; [done|lia|].
      unfold slice in Hblk.
      destruct ((0 <=? _) && _ && _) eqn:Hb; [done|].
      rewrite !andb_false_iff, !Z.leb_gt in Hb. lia. }
    destruct (len blk >? 0); cbn zeta.
    + destruct ((lenS _ =? 0) || _) eqn:Hsz; go_step; [done|].
      apply orb_false_iff in Hsz as [_ Hev%negb_false_iff%Z.eqb_eq].
      destruct (appendLabels_even _ _ [] (le_n _) Hev) as [ls ->]. go_step.
      rewrite Hnm. go_step. intros H. right; right; left.
      by apply (Huntil {| start := s; end_ := 0; name := nm; labels := ls |}).
    + go_step. rewrite Hnm. go_step. intros H. right; right; left.
      by apply (Huntil {| start := s; end_ := 0; name := nm; labels := [] |}).
Qed.

Lemma readParams_panics_only_witness :
  readParams (query3 "1000" "{" "2000") = Panicked
  /\ GoStrings.Index "{" "{" = len "{" - 1.
Proof.
  split; [reflexivity|].
  destruct (readParams_panics_only (query3 "1000" "{" "2000") eq_refl)
    as [H|[H|[H|(v & rn & Hv & _ & Hi)]]]; try (vm_compute in H; discriminate).
  reflexivity.
Defined.

(** ** Numbers in the query *)

Lemma parseLoop_non_digit (s0 s : string) (n : Z) :
  allDigits s = false ->
  exists r e, strconv.parseLoop s0 10 (strconv.maxUint64 / 10 + 1)
                (wrap64 (Z.shiftl 1 64 - 1)) s n
              = (r, Some (NumError "ParseUint" s0 e)).
Proof.
  revert n. induction s as [|a s IH]; intros n; cbn [allDigits]; [done|].
  intros Hd. cbn [strconv.parseLoop]. cbv zeta. unfold isDigit in Hd.
  destruct ((48 <=? strconv.byte a) && (strconv.byte a <=? 57)) eqn:Hdig.
  - cbn [andb] in Hd.
    destruct (strconv.byte a - 48 >=? 10); [by eexists _, _|].
    destruct (n >=? _); [by eexists _, _|].
    destruct (_ || _); [by eexists _, _|]. by apply IH.
  - destruct ((97 <=? strconv.lower (strconv.byte a)) && _) eqn:Hlet; [|by eexists _, _].
    apply andb_true_iff in Hlet as [Hlo%Z.leb_le _].
    replace (strconv.lower (strconv.byte a) - 97 + 10 >=? 10) with true
      by (symmetry; apply Z.geb_le; lia).
    by eexists _, _.
Qed.

(** X7. A [from] value that is empty or contains a byte that is not a
    decimal digit (a sign, a space, a letter, a dot) ends validation with
    the start-time error, before [name] and [until] are looked at. *)
Theorem readParams_from_not_decimal
    (qsv : gmap string (list string)) (f : string) (rf : list string) :
  qsv !! "from" = Some (f :: rf) ->
  f = "" \/ allDigits f = false ->
  exists e,
    readParams qsv
    = Returned ({| start := 0; end_ := 0; name := ""; labels := [] |},
                Some (wrapError "failed to parse start time: "
                        (NumError "ParseUint" f e))).
Proof.
  intros Hf Hbad. unfold readParams. rewrite Hf. go_step.
  unfold strconv.ParseUint.
  destruct (String.eqb_spec f "") as [->|Hne]; [by eexists|].
  destruct Hbad as [?|Hbad]; [done|].
  destruct (parseLoop_non_digit f f 0 Hbad) as (r & e & ->). by eexists.
Qed.

Lemma readParams_from_not_decimal_witness :
  exists e,
    readParams (query3 "-1" "svc" "2000")
    = Returned ({| start := 0; end_ := 0; name := ""; labels := [] |},
                Some (wrapError "failed to parse start time: "
                        (NumError "ParseUint" "-1" e))).
Proof.
  apply (readParams_from_not_decimal (query3 "-1" "svc" "2000") "-1" []).
  - reflexivity.
  - right. reflexivity.
Defined.

(** ** More on record assembly *)

(** The loop adds the record of each profile, in order, and sums the
    payload sizes. *)
Lemma appendRecords_map (pm : params) (ps : list profile_types.ProfileIR)
    (rs : list plog.LogRecord) (sz : Z) :
  appendRecords pm ps rs sz
  = ((rs ++ map (recordOf pm) ps)%list, sz + payloadSize ps, None).
Proof.
  revert rs sz. induction ps as [|pr ps IH]; intros rs sz.
  - cbn. by rewrite app_nil_r, Z.add_0_r.
  - cbn [appendRecords].
    destruct (setAttrsFromProfile_ok pr (paramAttrs pm)) as (m' & Hm' & _).
    rewrite Hm', IH. cbn [map payloadSize foldr].
    rewrite <- app_assoc. unfold recordOf at 2. rewrite Hm'. cbn [fst app].
    do 2 f_equal. unfold payloadSize. lia.
Qed.

(** What [readProfiles] does once the parser has returned profiles. *)
Lemma readProfiles_parsed (recv : pyroscopeReceiver) (req : Request) (pm : params)
    (buf : string) (md : profile_types.Metadata) (ps : list profile_types.ProfileIR) :
  In (CallParse buf md) (fst (readProfiles recv req pm)) ->
  Parse recv buf md = (ps, None) ->
  exists f,
    readProfiles recv req pm
    = ((bodyPrefix pm f buf md
        ++ [ParsedBodyUncompressedSizeBytes (payloadSize ps) (name pm) formatPprof ""])%list,
       Returned ([[map (recordOf pm) ps]], None)).
Proof.
  intros Hin Hparse.
  destruct (readProfiles_parse_inv recv req pm buf md Hin) as [f Hr].
  rewrite Hparse, appendRecords_map in Hr. by exists f.
Qed.

Lemma tags_last (ls : list Label) (m : gmap string string) (k : string) :
  foldl (fun tm l => <[Name l := Value l]> tm) m ls !! k
  = match last (filter (fun l => Name l = k) ls) with
    | Some l => Some (Value l)
    | None => m !! k
    end.
Proof.
  revert m. induction ls as [|l ls IH] using rev_ind; intros m; [done|].
  rewrite foldl_app, filter_app. cbn [foldl].
  destruct (decide (Name l = k)) as [<-|Hne].
  - rewrite lookup_insert_eq. rewrite (filter_cons_True _ l []) by done.
    by rewrite filter_nil, last_snoc.
  - rewrite lookup_insert_ne by done. rewrite (filter_cons_False _ l []) by done.
    rewrite filter_nil, app_nil_r. apply IH.
Qed.

Lemma recordOf_attributes (pm : params) (pr : profile_types.ProfileIR) :
  plog.Attributes (recordOf pm pr)
  = list_to_map
      [("payload_type", pcommon.ValueStr (profile_types.PayloadType pr));
       ("period_unit",
        pcommon.ValueStr (profile_types.PeriodUnit (profile_types.Typ pr)));
       ("period_type",
        pcommon.ValueStr (profile_types.PeriodType (profile_types.Typ pr)));
       ("sample_units",
        pcommon.ValueSlice (profile_types.SampleUnit (profile_types.Typ pr)));
       ("sample_types",
        pcommon.ValueSlice (profile_types.SampleType (profile_types.Typ pr)));
       ("type", pcommon.ValueStr (profile_types.Type_ (profile_types.Typ pr)));
       ("tags",
        pcommon.ValueMap
          (foldl (fun tm l => <[Name l := Value l]> tm) ∅ (labels pm)));
       ("service_name", pcommon.ValueStr (name pm));
       ("duration_ns",
        pcommon.ValueStr (strconv.FormatUint (ns (wrap64 (end_ pm - start pm)))))].
Proof.
  unfold recordOf, setAttrsFromProfile, pcommon.FromRaw, paramAttrs.
  cbn [plog.Attributes fst list_to_map foldr]. cbv zeta.
  by rewrite !insert_insert_eq.
Qed.

(** X8. When the parser returns profiles, [readProfiles] returns one
    batch with one record per profile, in the parser's order, each with
    the profile's payload as body and [start * 1e9] (wrapping) as
    timestamp; the parsed-size metric is the sum of the payload sizes. *)
Theorem readProfiles_batch (recv : pyroscopeReceiver) (req : Request) (pm : params)
    (buf : string) (md : profile_types.Metadata) (ps : list profile_types.ProfileIR) :
  In (CallParse buf md) (fst (readProfiles recv req pm)) ->
  Parse recv buf md = (ps, None) ->
  exists rs,
    snd (readProfiles recv req pm) = Returned ([[rs]], None)
    /\ map plog.Body rs = map profile_types.Payload ps
    /\ Forall (fun r => plog.Timestamp r = wrap64 (start pm * 1000000000)) rs
    /\ In (ParsedBodyUncompressedSizeBytes
             (foldr (fun pr n => len (profile_types.Payload pr) + n) 0 ps)
             (name pm) "pprof" "")
          (fst (readProfiles recv req pm)).
Proof.
  intros Hin Hparse.
  destruct (readProfiles_parsed recv req pm buf md ps Hin Hparse) as [f ->].
  exists (map (recordOf pm) ps). cbn [fst snd]. split_and!.
  - done.
  - by rewrite map_map.
  - by apply Forall_map, Forall_true.
  - apply in_app_iff. right. by left.
Qed.

Lemma readProfiles_batch_witness :
  exists rs,
    snd (readProfiles failingReceiver lateReq twiceParams) = Returned ([[rs]], None)
    /\ map plog.Body rs = ["P"; "P"]
    /\ Forall (fun r => plog.Timestamp r = 1000000000000) rs
    /\ In (ParsedBodyUncompressedSizeBytes 2 "svc" "pprof" "")
          (fst (readProfiles failingReceiver lateReq twiceParams)).
Proof.
  apply (readProfiles_batch failingReceiver lateReq twiceParams "B"
           {| profile_types.SampleRateHertz := 0 |} [cpuProfile; cpuProfile]).
  - vm_compute. tauto.
  - reflexivity.
Defined.

(** X9. Each record carries exactly nine attributes: the duration, the
    service name, the tags, and the six fields of the profile's type and
    payload, copied as they are. *)
Theorem readProfiles_attributes (recv : pyroscopeReceiver) (req : Request) (pm : params)
    (buf : string) (md : profile_types.Metadata) (ps : list profile_types.ProfileIR) :
  In (CallParse buf md) (fst (readProfiles recv req pm)) ->
  Parse recv buf md = (ps, None) ->
  exists rs,
    snd (readProfiles recv req pm) = Returned ([[rs]], None)
    /\ forall (k : nat) pr, ps !! k = Some pr ->
         exists r, rs !! k = Some r
           /\ dom (plog.Attributes r)
              = list_to_set ["duration_ns"; "service_name"; "tags"; "type";
                             "sample_types"; "sample_units"; "period_type";
                             "period_unit"; "payload_type"]
           /\ plog.Attributes r !! "service_name" = Some (pcommon.ValueStr (name pm))
           /\ plog.Attributes r !! "type"
              = Some (pcommon.ValueStr (profile_types.Type_ (profile_types.Typ pr)))
           /\ plog.Attributes r !! "sample_types"
              = Some (pcommon.ValueSlice (profile_types.SampleType (profile_types.Typ pr)))
           /\ plog.Attributes r !! "sample_units"
              = Some (pcommon.ValueSlice (profile_types.SampleUnit (profile_types.Typ pr)))
           /\ plog.Attributes r !! "period_type"
              = Some (pcommon.ValueStr (profile_types.PeriodType (profile_types.Typ pr)))
           /\ plog.Attributes r !! "period_unit"
              = Some (pcommon.ValueStr (profile_types.PeriodUnit (profile_types.Typ pr)))
           /\ plog.Attributes r !! "payload_type"
              = Some (pcommon.ValueStr (profile_types.PayloadType pr)).
Proof.
  intros Hin Hparse.
  destruct (readProfiles_parsed recv req pm buf md ps Hin Hparse) as [f ->].
  exists (map (recordOf pm) ps). split; [done|].
  intros k pr Hk. exists (recordOf pm pr).
  split; [by rewrite list_lookup_fmap, Hk|].
  rewrite recordOf_attributes. split.
  - rewrite dom_list_to_map_L. cbn [fmap list_fmap fst list_to_set foldr].
    set_solver.
  - cbn [list_to_map foldr fst snd]. split_and!.
    all: by rewrite ?lookup_insert_ne by done; rewrite lookup_insert_eq.
Qed.

Lemma readProfiles_attributes_witness :
  exists rs,
    snd (readProfiles lateRecv lateReq twiceParams) = Returned ([[rs]], None)
    /\ exists r, rs !! 0%nat = Some r
         /\ plog.Attributes r !! "type" = Some (pcommon.ValueStr "cpu")
         /\ plog.Attributes r !! "sample_types" = Some (pcommon.ValueSlice ["samples"]).
Proof.
  destruct (readProfiles_attributes lateRecv lateReq twiceParams "B"
              {| profile_types.SampleRateHertz := 0 |} [cpuProfile])
    as (rs & Hrs & Hk).
  - vm_compute. tauto.
  - reflexivity.
  - exists rs. split; [exact Hrs|].
    destruct (Hk 0%nat cpuProfile eq_refl) as (r & Hr & _ & _ & Hty & Hst & _).
    exists r. auto.
Defined.

(** X10. The [tags] attribute maps each label name to the value of the
    last label with that name: a name given twice is kept once. *)
Theorem readProfiles_tags_last_wins (recv : pyroscopeReceiver) (req : Request)
    (pm : params) (t : list event) (logs : plog.Logs) (err : option error) :
  readProfiles recv req pm = (t, Returned (logs, err)) ->
  forall rl sl r, In rl logs -> In sl rl -> In r sl ->
    exists tm,
      plog.Attributes r !! "tags" = Some (pcommon.ValueMap tm)
      /\ forall k, tm !! k = Value <$> last (filter (fun l => Name l = k) (labels pm)).
Proof.
  unfold readProfiles, openMultipartJfr. io_step.
  repeat stage.
  all: intros [= <- <- <-]; try done.
  all: intros rl sl r [<-|[]] [<-|[]] Hr.
  all: match goal with
       | H : appendRecords ?pm' ?ps [] 0 = _ |- _ =>
           rewrite appendRecords_map in H; simplify_eq
       end.
  all: apply in_map_iff in Hr as (pr & <- & _).
  all: eexists; rewrite recordOf_attributes; split;
    [ cbn [list_to_map foldr fst snd];
      by rewrite !lookup_insert_ne by done; rewrite lookup_insert_eq
    | intros k; rewrite tags_last, lookup_empty; by destruct (last _) ].
Qed.

Lemma readProfiles_tags_last_wins_witness :
  labels twiceParams
  = [{| Name := "env"; Value := "dev" |}; {| Name := "zone"; Value := "a" |};
     {| Name := "env"; Value := "prod" |}]
  /\ forall rl sl r,
       In rl (logsOf (readProfiles lateRecv lateReq twiceParams)) ->
       In sl rl -> In r sl ->
       exists tm,
         plog.Attributes r !! "tags" = Some (pcommon.ValueMap tm)
         /\ tm !! "env" = Some "prod" /\ tm !! "zone" = Some "a" /\ tm !! "x" = None.
Proof.
  split; [reflexivity|].
  intros rl sl r Hrl Hsl Hr.
  destruct (readProfiles_tags_last_wins lateRecv lateReq twiceParams
              (fst (readProfiles lateRecv lateReq twiceParams))
              (logsOf (readProfiles lateRecv lateReq twiceParams)) None
              ltac:(vm_compute; reflexivity) rl sl r Hrl Hsl Hr) as (tm & Htm & Hk).
  exists tm. split; [exact Htm|].
  rewrite !Hk. split_and!; reflexivity.
Defined.

(** X11. For a start and a window of at most 18446744073 seconds (the
    year 2554), nothing wraps: the timestamp is [start * 1e9] and the
    duration is the text of [(end - start) * 1e9].  One second more
    wraps. *)
Theorem readProfiles_exact_times (recv : pyroscopeReceiver) (req : Request)
    (pm : params) (t : list event) (logs : plog.Logs) (err : option error) :
  0 <= start pm <= 18446744073 ->
  start pm <= end_ pm <= start pm + 18446744073 ->
  readProfiles recv req pm = (t, Returned (logs, err)) ->
  (forall rl sl r, In rl logs -> In sl rl -> In r sl ->
     plog.Timestamp r = start pm * 1000000000
     /\ plog.Attributes r !! "duration_ns"
        = Some (pcommon.ValueStr
                  (strconv.FormatUint ((end_ pm - start pm) * 1000000000))))
  /\ ns 18446744074 = 290448384.
Proof.
  intros Hs He Hr. split; [|reflexivity].
  intros rl sl r Hrl Hsl Hin.
  assert (Hns : forall z, 0 <= z <= 18446744073 -> ns z = z * 1000000000).
  { intros z Hz. unfold ns, wrap64. apply Z.mod_small. lia. }
  revert Hr. unfold readProfiles, openMultipartJfr. io_step.
  repeat stage.
  all: intros [= <- <- <-]; try done.
  all: destruct Hrl as [<-|[]]; destruct Hsl as [<-|[]].
  all: match goal with
       | H : appendRecords ?pm' ?ps [] 0 = _ |- _ =>
           rewrite appendRecords_map in H; simplify_eq
       end.
  all: apply in_map_iff in Hin as (pr & <- & _); split;
    [ cbn [recordOf plog.Timestamp]; by apply Hns
    | rewrite recordOf_attributes; cbn [list_to_map foldr fst snd];
      rewrite !lookup_insert_ne by done; rewrite lookup_insert_eq;
      do 3 f_equal; unfold wrap64 at 1; rewrite Z.mod_small by lia; apply Hns; lia ].
Qed.

Lemma readProfiles_exact_times_witness :
  (0 <= start twiceParams <= 18446744073)
  /\ forall rl sl r,
       In rl (logsOf (readProfiles lateRecv lateReq twiceParams)) ->
       In sl rl -> In r sl ->
       plog.Timestamp r = 1000000000000
       /\ plog.Attributes r !! "duration_ns" = Some (pcommon.ValueStr "1000000000000").
Proof.
  split; [vm_compute; split; congruence|].
  refine (proj1 (readProfiles_exact_times lateRecv lateReq twiceParams
                   (fst (readProfiles lateRecv lateReq twiceParams))
                   (logsOf (readProfiles lateRecv lateReq twiceParams)) None _ _ _)).
  - vm_compute. split; congruence.
  - vm_compute. split; congruence.
  - vm_compute. reflexivity.
Defined.

(** ** More on the stages of a request *)

(** From an event known to be in a trace to the stage that emitted it. *)
Ltac trace_inv :=
  let Hin := fresh "Hin" in
  intros Hin; cbn in Hin;
  repeat (destruct Hin as [Hin|Hin]; [try discriminate|]); try done;
  simplify_eq;
  repeat match goal with
         | H1 : ?x = _, H2 : ?x = _ |- _ => rewrite H1 in H2; simplify_eq
         end.

Lemma readProfiles_decompress_failed (recv : pyroscopeReceiver) (req : Request)
    (pm : params) (f : string) (e : error) :
  In (CallDecompress f) (fst (readProfiles recv req pm)) ->
  Decompress recv f = inl e ->
  readProfiles recv req pm
  = ([CallParseMultipartForm; CallDecompress f],
     Returned (plog.NewLogs, Some (wrapError "failed to decompress body: " e))).
Proof.
  intros Hin Hd. revert Hin.
  unfold readProfiles, openMultipartJfr. io_step.
  repeat stage.
  all: trace_inv.
  all: done.
Qed.

Lemma readProfiles_rate_failed (recv : pyroscopeReceiver) (req : Request)
    (pm : params) (f buf v : string) (rest : list string) (hz : Z) (e : error) :
  In (CallDecompress f) (fst (readProfiles recv req pm)) ->
  Decompress recv f = inr buf ->
  Query req !! "sampleRate" = Some (v :: rest) ->
  strconv.ParseUint v 10 64 = (hz, Some e) ->
  readProfiles recv req pm
  = ([CallParseMultipartForm; CallDecompress f;
      RequestBodyUncompressedSizeBytes (len buf) (name pm) formatJfr "";
      ResetHeaders],
     Returned (plog.NewLogs, Some (wrapError "failed to parse rate: " e))).
Proof.
  intros Hin Hd Hq Hp. revert Hin.
  unfold readProfiles, openMultipartJfr. io_step. rewrite Hq.
  repeat stage.
  all: trace_inv.
  all: done.
Qed.

Section StageFacts.

Variable Quote : string -> string.

(** X14. When decompression fails, the request is answered 400 with
    [failed to decompress body: ] followed by the decompressor's own
    text; no size is recorded and the parser is not called. *)
Theorem handle_decompress_failure (recv : pyroscopeReceiver) (req : Request)
    (pm : params) (f : string) (e : error) :
  readParams (Query req) = Returned (pm, None) ->
  Method req = "POST" ->
  In (CallDecompress f) (fst (readProfiles recv req pm)) ->
  Decompress recv f = inl e ->
  handle Quote recv req
  = ([CallParseMultipartForm; CallDecompress f;
      HttpRequestTotal (name pm) "1";
      HttpResponseTimeMillis Unix (name pm) "1";
      LogError ("failed to decompress body: " ++ Error Quote e);
      WriteResponse "text/plain" 400
        (Some ("failed to decompress body: " ++ Error Quote e))],
     Returned tt).
Proof.
  intros Hp Hm Hin Hd.
  pose proof (readProfiles_decompress_failed recv req pm f e Hin Hd) as Hr.
  by rewrite (handle_readProfiles_error Quote recv req pm _ _ _ Hp Hm Hr).
Qed.

(** X15. An unparseable [sampleRate] is found only after the body has
    been decompressed and its size recorded: the request is then
    answered 400 with [failed to parse rate: ...], and the parser is not
    called. *)
Theorem handle_sample_rate_failure (recv : pyroscopeReceiver) (req : Request)
    (pm : params) (f buf v : string) (rest : list string) (hz : Z) (e : error) :
  readParams (Query req) = Returned (pm, None) ->
  Method req = "POST" ->
  In (CallDecompress f) (fst (readProfiles recv req pm)) ->
  Decompress recv f = inr buf ->
  Query req !! "sampleRate" = Some (v :: rest) ->
  strconv.ParseUint v 10 64 = (hz, Some e) ->
  handle Quote recv req
  = ([CallParseMultipartForm; CallDecompress f;
      RequestBodyUncompressedSizeBytes (len buf) (name pm) "jfr" "";
      ResetHeaders;
      HttpRequestTotal (name pm) "1";
      HttpResponseTimeMillis Unix (name pm) "1";
      LogError ("failed to parse rate: " ++ Error Quote e);
      WriteResponse "text/plain" 400 (Some ("failed to parse rate: " ++ Error Quote e))],
     Returned tt).
Proof.
  intros Hp Hm Hin Hd Hq Hpu.
  pose proof (readProfiles_rate_failed recv req pm f buf v rest hz e Hin Hd Hq Hpu) as Hr.
  by rewrite (handle_readProfiles_error Quote recv req pm _ _ _ Hp Hm Hr).
Qed.

(** X16. When the parser fails, the request is answered 400 with
    [failed to parse pprof: ] followed by the parser's own text, and
    nothing is delegated. *)
Theorem handle_parse_failure (recv : pyroscopeReceiver) (req : Request)
    (pm : params) (buf : string) (md : profile_types.Metadata)
    (ps : list profile_types.ProfileIR) (e : error) :
  readParams (Query req) = Returned (pm, None) ->
  Method req = "POST" ->
  In (CallParse buf md) (fst (readProfiles recv req pm)) ->
  Parse recv buf md = (ps, Some e) ->
  let t := fst (handle Quote recv req) in
  responses t
  = [("text/plain", 400, Some ("failed to parse pprof: " ++ Error Quote e))]
  /\ logged t = ["failed to parse pprof: " ++ Error Quote e]
  /\ count isConsumeLogs t = 0%nat.
Proof.
  intros Hp Hm Hin Hparse.
  destruct (readProfiles_parse_inv recv req pm buf md Hin) as [f Hr].
  rewrite Hparse in Hr.
  by rewrite (handle_readProfiles_error Quote recv req pm _ _ _ Hp Hm Hr).
Qed.

(** X17. A request that is not a POST and whose query is valid is
    answered 405, tagged with the parsed service name, before the format
    and the body are looked at. *)
Theorem handle_method_not_allowed (recv : pyroscopeReceiver) (req : Request)
    (pm : params) :
  readParams (Query req) = Returned (pm, None) ->
  Method req <> "POST" ->
  handle Quote recv req
  = ([HttpRequestTotal (name pm) "1";
      HttpResponseTimeMillis Unix (name pm) "1";
      LogError "method not allowed, supported: [POST]";
      WriteResponse "text/plain" 405 (Some "method not allowed, supported: [POST]")],
     Returned tt).
Proof.
  intros Hp Hm%String.eqb_neq. unfold handle. rewrite Hp. io_step. by rewrite Hm.
Qed.

(** The whole run of a request whose parser returns profiles. *)
Lemma handle_delegates (recv : pyroscopeReceiver) (req : Request) (pm : params)
    (buf : string) (md : profile_types.Metadata) (ps : list profile_types.ProfileIR) :
  readParams (Query req) = Returned (pm, None) ->
  Method req = "POST" ->
  In (CallParse buf md) (fst (readProfiles recv req pm)) ->
  Parse recv buf md = (ps, None) ->
  ps <> [] ->
  exists f,
    handle Quote recv req
    = ((bodyPrefix pm f buf md
        ++ [ParsedBodyUncompressedSizeBytes (payloadSize ps) (name pm) formatPprof "";
            CallConsumeLogs [[map (recordOf pm) ps]]]
        ++ afterConsume Quote pm (ConsumeLogs recv [[map (recordOf pm) ps]]))%list,
       Returned tt).
Proof.
  intros Hp Hm Hin Hparse Hne.
  destruct (readProfiles_parsed recv req pm buf md ps Hin Hparse) as [f Hr].
  exists f. unfold handle. rewrite Hp, Hm. io_step. rewrite Hr. io_step.
  destruct ps as [|pr ps]; [done|]. cbn [map lenS List.length].
  change (Z.of_nat (S _) =? 0) with false. cbv iota. io_step.
  by destruct (ConsumeLogs recv _).
Qed.

(** X18. When the parser returns at least one profile, the batch is
    handed to the consumer exactly once; if the consumer accepts it the
    answer is 204 and the request is counted with the success code, and
    if it refuses the answer is 500 with the consumer's own text. *)
Theorem handle_delegation_outcome (recv : pyroscopeReceiver) (req : Request)
    (pm : params) (buf : string) (md : profile_types.Metadata)
    (ps : list profile_types.ProfileIR) :
  readParams (Query req) = Returned (pm, None) ->
  Method req = "POST" ->
  In (CallParse buf md) (fst (readProfiles recv req pm)) ->
  Parse recv buf md = (ps, None) ->
  ps <> [] ->
  let t := fst (handle Quote recv req) in
  exists rs,
    snd (readProfiles recv req pm) = Returned ([[rs]], None)
    /\ List.filter isConsumeLogs t = [CallConsumeLogs [[rs]]]
    /\ match ConsumeLogs recv [[rs]] with
       | None =>
           responses t = [("", 204, None)]
           /\ count isErrorReport t = 0%nat
           /\ In (HttpRequestTotal (name pm) "") t
       | Some err =>
           responses t = [("text/plain", 500, Some (Error Quote err))]
           /\ logged t = [Error Quote err]
           /\ In (HttpRequestTotal (name pm) "1") t
       end.
Proof.
  intros Hp Hm Hin Hparse Hne.
  destruct (handle_delegates recv req pm buf md ps Hp Hm Hin Hparse Hne) as [f ->].
  destruct (readProfiles_parsed recv req pm buf md ps Hin Hparse) as [f' ->].
  exists (map (recordOf pm) ps). cbn [fst snd].
  destruct (ConsumeLogs recv _); cbn; split_and!; auto 10.
Qed.

(** X19. A run of [handle] that returns writes exactly one response, with
    status 204, 400, 405 or 500, and calls the consumer at most once; a
    response of status 400 or above has as body the one message logged
    as an error, and a 204 logs none.  A run that panics writes no
    response and calls the consumer never. *)
Theorem handle_one_response (recv : pyroscopeReceiver) (req : Request) :
  let t := fst (handle Quote recv req) in
  match snd (handle Quote recv req) with
  | Returned _ =>
      (count isConsumeLogs t <= 1)%nat
      /\ ((responses t = [("", 204, None)] /\ logged t = [])
          \/ exists st msg,
               responses t = [("text/plain", st, Some msg)]
               /\ logged t = [msg]
               /\ (st = 400 \/ st = 405 \/ st = 500))
  | Panicked => responses t = [] /\ count isConsumeLogs t = 0%nat
  end.
Proof.
  unfold handle, readProfiles, openMultipartJfr. io_step.
  repeat stage.
  all: cbn; split; try done; try lia; eauto 10.
Qed.

End StageFacts.

(** ** More on the race *)

Section RaceFacts.

Variable Quote : string -> string.
Variable recv : pyroscopeReceiver.
Variable req : Request.

Lemma count_app (f : event -> bool) (t t' : list event) :
  count f (t ++ t') = (count f t + count f t')%nat.
Proof. unfold count. by rewrite List.filter_app, length_app. Qed.

(** Counting over a trace is counting per thread. *)
Lemma count_threads (f : event -> bool) (t : list (thread * event)) :
  count f (map snd t)
  = (count f (eventsOf Handler t) + count f (eventsOf Goroutine t))%nat.
Proof.
  induction t as [|[[] e] t IH]; [done| |].
  - change (map snd ((Handler, e) :: t)) with (e :: map snd t).
    change (eventsOf Handler ((Handler, e) :: t)) with (e :: eventsOf Handler t).
    change (eventsOf Goroutine ((Handler, e) :: t)) with (eventsOf Goroutine t).
    unfold count in *. cbn [List.filter]. destruct (f e); cbn [List.length]; lia.
  - change (map snd ((Goroutine, e) :: t)) with (e :: map snd t).
    change (eventsOf Handler ((Goroutine, e) :: t)) with (eventsOf Handler t).
    change (eventsOf Goroutine ((Goroutine, e) :: t)) with (e :: eventsOf Goroutine t).
    unfold count in *. cbn [List.filter]. destruct (f e); cbn [List.length]; lia.
Qed.

(** A trace without handler events is the goroutine's alone. *)
Lemma trace_goroutine_only (t : list (thread * event)) :
  eventsOf Handler t = [] -> t = map (pair Goroutine) (eventsOf Goroutine t).
Proof.
  induction t as [|[[] e] t IH]; [done|done|].
  change (eventsOf Handler ((Goroutine, e) :: t)) with (eventsOf Handler t).
  change (eventsOf Goroutine ((Goroutine, e) :: t)) with (e :: eventsOf Goroutine t).
  intros Ht. cbn [map]. by rewrite <- IH.
Qed.

(** The goroutine can always run on: from any state it emits its next
    [n] events, whatever the deadline and the handler have done. *)
Lemma work_steps (n : nat) (s : state) :
  (emitted s + n <= List.length (script Quote recv req))%nat ->
  rtc (step Quote recv req) s
    {| emitted := emitted s + n; done := done s; handler := handler s;
       trace := (trace s
                 ++ map (pair Goroutine)
                      (take n (drop (emitted s) (script Quote recv req))))%list |}.
Proof.
  revert s. induction n as [|n IH]; intros s Hn.
  - destruct s as [k d h t]. cbn [emitted done handler trace take map].
    rewrite Nat.add_0_r, app_nil_r. apply rtc_refl.
  - destruct (lookup_lt_is_Some_2 (script Quote recv req) (emitted s)) as [e He]; [lia|].
    eapply rtc_l; [by apply (step_work Quote recv req s e)|].
    eapply rtc_trans; [apply IH; cbn [emitted]; lia|].
    cbn [emitted done handler trace].
    rewrite (drop_S _ _ _ He). cbn [take map].
    rewrite <- app_assoc, Nat.add_succ_r. apply rtc_refl.
Qed.

(** The signal is received only from a goroutine that has finished. *)
Lemma completed_finished (s : state) :
  reachable Quote recv req s ->
  handler s = Completed -> emitted s = List.length (script Quote recv req).
Proof.
  unfold reachable. revert s.
  apply (rtc_ind_r (R := step Quote recv req)
           (fun s => handler s = Completed ->
                     emitted s = List.length (script Quote recv req)) init); [done|].
  intros y z _ Hyz IH.
  destruct Hyz as [s e He|s Hd|s Hsel Hd|s Hsel Hfin]; cbn [handler emitted]; try done.
  intros Hc. apply IH in Hc. apply lookup_lt_Some in He. lia.
Qed.

(** X21. When the handler receives the completion signal, the events of
    the request are exactly those of [handle], all of them, in order and
    from the goroutine; the handler itself has emitted nothing, whether
    or not the deadline passes afterwards. *)
Theorem completion_trace (s : state) :
  reachable Quote recv req s ->
  handler s = Completed ->
  trace s = map (pair Goroutine) (script Quote recv req)
  /\ eventsOf Handler (trace s) = [].
Proof.
  intros Hr Hc.
  pose proof (completed_finished s Hr Hc) as Hfin.
  destruct (inv_reachable Quote recv req s Hr) as [Hg Hh].
  rewrite Hc in Hh. split; [|done].
  rewrite (trace_goroutine_only _ Hh), Hg, Hfin. by rewrite firstn_all.
Qed.

Lemma handle_writes_once (rcv : pyroscopeReceiver) (rq : Request) :
  snd (handle Quote rcv rq) = Returned tt ->
  count isWriteResponse (fst (handle Quote rcv rq)) = 1%nat.
Proof.
  unfold handle, readProfiles, openMultipartJfr. io_step.
  repeat stage.
  all: cbn; intros; try done.
Qed.

(** X22. When the handler has timed out and the goroutine has run
    [handle] to its end, two responses have been written for the one
    request, the 408 and the goroutine's own, and the request has been
    counted once more than [handle] counts it. *)
Theorem timeout_double_report (s : state) :
  reachable Quote recv req s ->
  handler s = TimedOut ->
  emitted s = List.length (script Quote recv req) ->
  snd (handle Quote recv req) = Returned tt ->
  count isWriteResponse (map snd (trace s)) = 2%nat
  /\ count isRequestTotal (map snd (trace s))
     = S (count isRequestTotal (script Quote recv req))
  /\ count isResponseTime (map snd (trace s))
     = S (count isResponseTime (script Quote recv req)).
Proof.
  intros Hr Ht Hfin Hret.
  destruct (inv_reachable Quote recv req s Hr) as [Hg Hh].
  rewrite Ht in Hh. rewrite Hfin, firstn_all in Hg.
  rewrite !count_threads, Hg, Hh.
  pose proof (handle_writes_once recv req Hret) as Hone.
  fold (script Quote recv req) in Hone. rewrite Hone. done.
Qed.

End RaceFacts.

Lemma completedState_reachable : reachable QuotePlain lateRecv lateReq completedState.
Proof.
  unfold reachable.
  eapply rtc_trans;
    [apply (work_steps QuotePlain lateRecv lateReq 10 init), Nat.leb_le;
     vm_compute; reflexivity|].
  eapply rtc_l; [apply step_complete; vm_compute; reflexivity|].
  vm_compute. apply rtc_refl.
Qed.

Lemma doubleState_reachable : reachable QuotePlain lateRecv lateReq doubleState.
Proof.
  unfold reachable.
  eapply rtc_trans;
    [apply (work_steps QuotePlain lateRecv lateReq 10 init), Nat.leb_le;
     vm_compute; reflexivity|].
  eapply rtc_l; [apply step_deadline; reflexivity|].
  eapply rtc_l; [apply step_timeout; reflexivity|].
  vm_compute. apply rtc_refl.
Qed.

Lemma completion_trace_witness :
  trace completedState = map (pair Goroutine) (script QuotePlain lateRecv lateReq)
  /\ eventsOf Handler (trace completedState) = [].
Proof.
  apply (completion_trace QuotePlain lateRecv lateReq completedState
           completedState_reachable eq_refl).
Defined.

Lemma timeout_double_report_witness :
  count isWriteResponse (map snd (trace doubleState)) = 2%nat
  /\ count isRequestTotal (map snd (trace doubleState)) = 2%nat.
Proof.
  destruct (timeout_double_report QuotePlain lateRecv lateReq doubleState
              doubleState_reachable eq_refl eq_refl eq_refl) as (H1 & H2 & _).
  split; [exact H1|]. rewrite H2. reflexivity.
Defined.

(** ** The buffer pool *)

Lemma Get_elem (p p' : sync.Pool) (b : string) :
  sync.Get p (Some b) p' -> In b p /\ forall x, In x p' -> In x p.
Proof.
  inversion 1; subst. split.
  - apply in_app_iff. right. by left.
  - intros x [?|?]%in_app_iff; apply in_app_iff; [by left|right; by right].
Qed.

(** Every pooled buffer is empty. *)
Lemma pool_all_reset (p : sync.Pool) :
  rtc poolStep [] p -> Forall (fun b => b = "") p.
Proof.
  revert p. apply (rtc_ind_r (R := poolStep) (Forall (fun b => b = "")) []); [done|].
  intros y z _ Hyz IH. rewrite Forall_forall in IH.
  destruct Hyz as [p buf p' Hacq|p buf|p1 b p2].
  - destruct Hacq as [p v p' Hget]. inversion Hget; subst; [by apply Forall_forall|].
    apply Forall_forall. intros x Hx. apply IH.
    rewrite !elem_of_app in *. rewrite elem_of_cons. tauto.
  - by apply Forall_cons; split; [|apply Forall_forall].
  - apply Forall_forall. intros x Hx. apply IH.
    rewrite !elem_of_app in *. rewrite elem_of_cons. tauto.
Qed.

(** X23. Whatever requests have acquired, written and released before,
    a buffer acquired from the receiver's pool is empty: released
    buffers are reset before they are put back, and nothing else is. *)
Theorem acquireBuf_empty (p p' : sync.Pool) (buf : string) :
  rtc poolStep [] p ->
  acquireBuf p buf p' ->
  len buf = 0 /\ rtc poolStep [] p'.
Proof.
  intros Hp Hacq. split.
  - apply pool_all_reset in Hp. rewrite Forall_forall in Hp.
    destruct Hacq as [p v p' Hget]. inversion Hget; subst; [done|].
    rewrite (Hp b); [done|]. rewrite elem_of_app, elem_of_cons. tauto.
  - eapply rtc_r; [done|]. by econstructor.
Qed.

Lemma acquireBuf_empty_witness :
  exists p, acquireBuf (releaseBuf [] "stale bytes") "" p /\ len "" = 0.
Proof.
  exists []. split.
  - apply (acquireBuf_intro ([] ++ "" :: []) (Some "") ([] ++ [])), (sync.Get_some [] "" []).
  - apply (acquireBuf_empty (releaseBuf [] "stale bytes") [] "").
    + eapply rtc_l; [apply (pool_release [] "stale bytes")|apply rtc_refl].
    + apply (acquireBuf_intro ([] ++ "" :: []) (Some "") ([] ++ [])),
        (sync.Get_some [] "" []).
Defined.

Lemma readParams_labels_wellformed_witness :
  forallb validLabel [{| Name := "env"; Value := "prod" |};
                      {| Name := "zone"; Value := "a" |}] = true.
Proof.
  apply (readParams_labels_wellformed (query3 "1000" "svc{env=prod,,zone==a}" "2000")
           {| start := 1000; end_ := 2000; name := "svc";
              labels := [{| Name := "env"; Value := "prod" |};
                         {| Name := "zone"; Value := "a" |}] |}).
  vm_compute; reflexivity.
Defined.

Lemma readParams_name_prefix_witness :
  GoStrings.Index "svc" "{" = -1
  /\ exists v rn rest,
       query3 "1000" "svc{env=prod}" "2000" !! "name" = Some (v :: rn)
       /\ v = "svc" ++ rest
       /\ (rest = "" \/ exists rest', rest = String "{" rest').
Proof.
  apply (readParams_name_prefix (query3 "1000" "svc{env=prod}" "2000") prodParams).
  vm_compute; reflexivity.
Defined.

Lemma handle_decompress_failure_witness :
  responses (fst (handle QuotePlain brokenGzipReceiver lateReq))
  = [("text/plain", 400, Some "failed to decompress body: gzip: invalid header")].
Proof.
  rewrite (handle_decompress_failure QuotePlain brokenGzipReceiver lateReq prodParams
             "B" (foreignError "gzip: invalid header")).
  - reflexivity.
  - vm_compute; reflexivity.
  - reflexivity.
  - vm_compute. tauto.
  - reflexivity.
Defined.

Lemma handle_sample_rate_failure_witness :
  count isBodyWork (fst (handle QuotePlain lateRecv badRateRequest)) = 2%nat
  /\ parserCalls (fst (handle QuotePlain lateRecv badRateRequest)) = [].
Proof.
  rewrite (handle_sample_rate_failure QuotePlain lateRecv badRateRequest svcParams
             "B" "B" "x" [] 0 (NumError "ParseUint" "x" ErrSyntax)).
  - split; reflexivity.
  - vm_compute; reflexivity.
  - reflexivity.
  - vm_compute. tauto.
  - reflexivity.
  - vm_compute; reflexivity.
  - vm_compute; reflexivity.
Defined.

Lemma handle_parse_failure_witness :
  let t := fst (handle QuotePlain brokenParserReceiver lateReq) in
  responses t = [("text/plain", 400, Some "failed to parse pprof: bad magic")]
  /\ logged t = ["failed to parse pprof: bad magic"]
  /\ count isConsumeLogs t = 0%nat.
Proof.
  apply (handle_parse_failure QuotePlain brokenParserReceiver lateReq prodParams
           "B" {| profile_types.SampleRateHertz := 0 |} [] (foreignError "bad magic")).
  - vm_compute; reflexivity.
  - reflexivity.
  - vm_compute. tauto.
  - reflexivity.
Defined.

Lemma handle_method_not_allowed_witness :
  responses (fst (handle QuotePlain lateRecv
                    (jfrRequest "GET" (queryJfr "1000" "svc" "2000"))))
  = [("text/plain", 405, Some "method not allowed, supported: [POST]")].
Proof.
  rewrite (handle_method_not_allowed QuotePlain lateRecv
             (jfrRequest "GET" (queryJfr "1000" "svc" "2000")) svcParams).
  - reflexivity.
  - vm_compute; reflexivity.
  - discriminate.
Defined.

Lemma handle_delegation_outcome_witness :
  let t := fst (handle QuotePlain failingReceiver lateReq) in
  exists rs,
    List.filter isConsumeLogs t = [CallConsumeLogs [[rs]]]
    /\ List.length rs = 2%nat
    /\ responses t = [("text/plain", 500, Some "sink is down")].
Proof.
  destruct (handle_delegation_outcome QuotePlain failingReceiver lateReq prodParams
              "B" {| profile_types.SampleRateHertz := 0 |} [cpuProfile; cpuProfile])
    as (rs & Hrs & Hfilter & Hout).
  - vm_compute; reflexivity.
  - reflexivity.
  - vm_compute. tauto.
  - reflexivity.
  - discriminate.
  - exists rs. split; [exact Hfilter|].
    cbn [failingReceiver ConsumeLogs] in Hout. destruct Hout as (Hresp & _ & _).
    split; [|exact Hresp].
    vm_compute in Hrs. injection Hrs as <-. reflexivity.
Defined.

(** * From the request to the records *)

(** A request that passes every stage before the loop: what
    [readProfiles] does with the profiles the parser returns. *)
Lemma readProfiles_forward (recv : pyroscopeReceiver) (req : Request) (pm : params)
    (fmt : list string) (f buf : string) (md : profile_types.Metadata)
    (ps : list profile_types.ProfileIR) :
  Query req !! "format" = Some ("jfr" :: fmt) ->
  opensPart req f ->
  Decompress recv f = inr buf ->
  rateOf req md ->
  Parse recv buf md = (ps, None) ->
  readProfiles recv req pm
  = ((bodyPrefix pm f buf md
      ++ [ParsedBodyUncompressedSizeBytes (payloadSize ps) (name pm) formatPprof ""])%list,
     Returned ([[map (recordOf pm) ps]], None)).
Proof.
  intros Hfmt (File & fh & fhs & HF & Hpart & Hname & Hopen) Hd Hrate Hparse.
  unfold readProfiles, openMultipartJfr, formatJfr. rewrite Hfmt. io_step.
  change ("jfr" =? "jfr")%string with true. cbv iota.
  rewrite HF, Hpart. io_step. rewrite Hname.
  change (negb ("jfr" =? "jfr")%string) with false. cbv iota.
  rewrite Hopen. io_step. rewrite Hd. io_step.
  unfold rateOf in Hrate. destruct md as [hz]. cbn [profile_types.SampleRateHertz] in Hrate.
  destruct (Query req !! "sampleRate") as [tmp|].
  - destruct Hrate as (v & rest & -> & Hpu). io_step. rewrite Hpu. io_step.
    rewrite Hparse, appendRecords_map. done.
  - subst hz. io_step. rewrite Hparse, appendRecords_map. done.
Qed.

(** C7. For a request that passes every stage up to the parser, each
    profile the parser returns is assembled into a record whose
    [duration_ns] attribute is the decimal text of [(end - start) * 1e9]
    computed in [uint64] arithmetic, with wrap-around modulo [2^64].
    When [end < start] the subtraction wraps to [2^64 - (start - end)],
    a value above [end], and nothing fails: the records are returned,
    one per profile, without an error. *)
Theorem duration_ns_wraps (recv : pyroscopeReceiver) (req : Request) (pm : params)
    (fmt : list string) (f buf : string) (md : profile_types.Metadata)
    (ps : list profile_types.ProfileIR) :
  0 <= start pm < 2 ^ 64 ->
  0 <= end_ pm < 2 ^ 64 ->
  Query req !! "format" = Some ("jfr" :: fmt) ->
  opensPart req f ->
  Decompress recv f = inr buf ->
  rateOf req md ->
  Parse recv buf md = (ps, None) ->
  (exists rs,
     snd (readProfiles recv req pm) = Returned ([[rs]], None)
     /\ List.length rs = List.length ps
     /\ Forall (fun r =>
          plog.Attributes r !! "duration_ns"
          = Some (pcommon.ValueStr
                    (strconv.FormatUint
                       (((end_ pm - start pm) mod 2 ^ 64 * 1000000000) mod 2 ^ 64))))
          rs)
  /\ (end_ pm < start pm ->
      (end_ pm - start pm) mod 2 ^ 64 = 2 ^ 64 - (start pm - end_ pm)
      /\ end_ pm < (end_ pm - start pm) mod 2 ^ 64).
Proof.
  intros Hs He Hfmt Hopen Hd Hrate Hparse. split.
  - rewrite (readProfiles_forward recv req pm fmt f buf md ps) by done.
    exists (map (recordOf pm) ps). split_and!; [done|by rewrite length_map|].
    apply Forall_map, Forall_true. intros pr.
    rewrite recordOf_attributes. cbn [list_to_map foldr fst snd].
    rewrite !lookup_insert_ne by done. by rewrite lookup_insert_eq.
  - intros Hlt.
    assert ((end_ pm - start pm) mod 2 ^ 64 = 2 ^ 64 - (start pm - end_ pm)) as ->.
    { symmetry. apply (Z.mod_unique_pos _ _ (-1)); lia. }
    lia.
Qed.

(** [lateReq] has the part, with content [B]. *)
Lemma lateReq_opens : opensPart lateReq "B".
Proof. eexists _, _, _. split_and!; reflexivity. Qed.

(** C7 at [from=2000], [until=1000]: the record is there, and its
    duration has wrapped. *)
Lemma duration_ns_wraps_witness :
  end_ wrapParams < start wrapParams
  /\ exists r,
       snd (readProfiles lateRecv lateReq wrapParams) = Returned ([[[r]]], None)
       /\ plog.Attributes r !! "duration_ns"
          = Some (pcommon.ValueStr "18446743073709551616").
Proof.
  split; [reflexivity|].
  destruct (duration_ns_wraps lateRecv lateReq wrapParams [] "B" "B"
              {| profile_types.SampleRateHertz := 0 |} [cpuProfile])
    as [(rs & Hrs & Hlen & Hall) _].
  - vm_compute. split; congruence.
  - vm_compute. split; congruence.
  - reflexivity.
  - apply lateReq_opens.
  - reflexivity.
  - reflexivity.
  - reflexivity.
  - destruct rs as [|r [|r' rs]]; try discriminate Hlen.
    exists r. split; [exact Hrs|].
    exact (Forall_inv Hall).
Defined.

(** X12. The parser is called at most once; when it is, the buffer is
    what the decompressor made of the content of the opened part [jfr],
    and the metadata carries the sample rate of the query, 0 when the
    query has none. *)
Theorem readProfiles_parser_source (recv : pyroscopeReceiver) (req : Request)
    (pm : params) (buf : string) (md : profile_types.Metadata) :
  In (CallParse buf md) (fst (readProfiles recv req pm)) ->
  parserCalls (fst (readProfiles recv req pm)) = [(buf, md)]
  /\ (exists f, opensPart req f /\ Decompress recv f = inr buf)
  /\ rateOf req md.
Proof.
  unfold readProfiles, openMultipartJfr, opensPart, rateOf, formatJfr. io_step.
  repeat stage.
  all: trace_inv.
  all: repeat match goal with
         | H : index0 ?l = Returned _ |- _ => destruct l; [done|]; cbn in H; simplify_eq
         | H : negb (_ =? _)%string = false |- _ =>
             apply negb_false_iff, String.eqb_eq in H
         end.
  all: split_and!; [done| |].
  all: try (eexists; split; [by eexists _, _, _|done]).
  all: try done; by eexists _, _.
Qed.

Lemma readProfiles_parser_source_witness :
  parserCalls (fst (readProfiles lateRecv rateRequest svcParams))
  = [("B", {| profile_types.SampleRateHertz := 100 |})]
  /\ (exists f, opensPart rateRequest f /\ Decompress lateRecv f = inr "B")
  /\ rateOf rateRequest {| profile_types.SampleRateHertz := 100 |}.
Proof.
  apply (readProfiles_parser_source lateRecv rateRequest svcParams "B"
           {| profile_types.SampleRateHertz := 100 |}).
  vm_compute. tauto.
Defined.

Section Fixes.
Variable Quote : string -> string.

(** X13. When the multipart part cannot be extracted (the form does not
    parse, there is no part [jfr], its file name is not [jfr], or it
    does not open), the request is answered 400 with the text [msg] of
    that very failure as body and as log entry, and nothing is
    decompressed, parsed or delegated. *)
Theorem handle_multipart_failure_text (recv : pyroscopeReceiver) (req : Request)
    (pm : params) (rest : list string) (msg : string) :
  readParams (Query req) = Returned (pm, None) ->
  Method req = "POST" ->
  Query req !! "format" = Some ("jfr" :: rest) ->
  ((exists e, ParseMultipartForm req = inl e
              /\ msg = "failed to parse multipart request: " ++ Error Quote e)
   \/ (exists File, ParseMultipartForm req = inr File
         /\ ((File !! "jfr" = None /\ msg = "required jfr part is missing")
             \/ (exists fh fhs, File !! "jfr" = Some (fh :: fhs)
                   /\ ((Filename fh <> "jfr" /\ msg = "jfr filename is not 'jfr'")
                       \/ (Filename fh = "jfr" /\ Open fh = None
                           /\ msg = "failed to open jfr file")))))) ->
  handle Quote recv req
  = ([CallParseMultipartForm;
      HttpRequestTotal (name pm) "1";
      HttpResponseTimeMillis Unix (name pm) "1";
      LogError msg;
      WriteResponse "text/plain" 400 (Some msg)],
     Returned tt).
Proof.
  intros Hp Hm Hfmt Hcase.
  assert (Hr : exists err,
    readProfiles recv req pm = ([CallParseMultipartForm], Returned (plog.NewLogs, Some err))
    /\ Error Quote err = msg).
  { unfold readProfiles, openMultipartJfr, formatJfr. rewrite Hfmt. io_step.
    change ("jfr" =? "jfr")%string with true. cbv iota.
    destruct Hcase as [(e & -> & ->)|(File & -> & [[-> ->]|(fh & fhs & -> & Hfh)])].
    - by eexists.
    - by eexists.
    - io_step. destruct Hfh as [[Hne%String.eqb_neq ->]|(Heq%String.eqb_eq & -> & ->)].
      + rewrite Hne. by eexists.
      + rewrite Heq. by eexists. }
  destruct Hr as (err & Hr & <-).
  by rewrite (handle_readProfiles_error Quote recv req pm _ _ _ Hp Hm Hr).
Qed.

(** X20. A run of [handle] that returns and answers 204 without
    calling the consumer reports no request and no latency; every other
    run that returns reports exactly one request and exactly one
    latency. *)
Theorem handle_metrics_exact (recv : pyroscopeReceiver) (req : Request) :
  snd (handle Quote recv req) = Returned tt ->
  let t := fst (handle Quote recv req) in
  (responses t = [("", StatusNoContent, None)] /\ count isConsumeLogs t = 0%nat ->
   count isRequestTotal t = 0%nat /\ count isResponseTime t = 0%nat)
  /\ (responses t <> [("", StatusNoContent, None)] \/ count isConsumeLogs t <> 0%nat ->
      count isRequestTotal t = 1%nat /\ count isResponseTime t = 1%nat).
Proof.
  unfold handle, readProfiles, openMultipartJfr. io_step.
  repeat stage.
  all: cbn; intros; try done.
  all: split; [intros [? ?]; try done; try discriminate|intros [?|?]; try done].
Qed.

End Fixes.

Lemma handle_multipart_failure_text_witness :
  handle QuotePlain lateRecv noPartRequest
  = ([CallParseMultipartForm;
      HttpRequestTotal "svc" "1";
      HttpResponseTimeMillis Unix "svc" "1";
      LogError "required jfr part is missing";
      WriteResponse "text/plain" 400 (Some "required jfr part is missing")],
     Returned tt).
Proof.
  apply (handle_multipart_failure_text QuotePlain lateRecv noPartRequest svcParams []
           "required jfr part is missing").
  - vm_compute; reflexivity.
  - reflexivity.
  - vm_compute; reflexivity.
  - right. exists ∅. split; [reflexivity|]. left. split; reflexivity.
Defined.

Lemma handle_metrics_exact_witness :
  let quiet := fst (handle QuotePlain (stubReceiver []) lateReq) in
  let failed := fst (handle QuotePlain failingReceiver lateReq) in
  (responses quiet = [("", StatusNoContent, None)]
   /\ count isRequestTotal quiet = 0%nat /\ count isResponseTime quiet = 0%nat)
  /\ (responses failed = [("text/plain", 500, Some "sink is down")]
      /\ count isRequestTotal failed = 1%nat /\ count isResponseTime failed = 1%nat).
Proof.
  split.
  - split; [reflexivity|].
    apply (handle_metrics_exact QuotePlain (stubReceiver []) lateReq eq_refl).
    split; reflexivity.
  - split; [reflexivity|].
    apply (handle_metrics_exact QuotePlain failingReceiver lateReq eq_refl).
    left. discriminate.
Defined.

(** The loop of [ParseUint] returns without error only on decimal
    digits, and then with the number they write, which has stayed
    below [2^64] at every step. *)
Lemma parseLoop_exact (s0 s : string) (n r : Z) :
  0 <= n < 2 ^ 64 ->
  strconv.parseLoop s0 10 1844674407370955162 18446744073709551615 s n = (r, None) ->
  allDigits s = true /\ r = decimalFrom s n /\ 0 <= r < 2 ^ 64.
Proof.
  revert n. induction s as [|a s IH]; intros n Hn; cbn [strconv.parseLoop].
  - by intros [= <-].
  - cbv zeta. cbn [allDigits decimalFrom].
    unfold isDigit, strconv.syntaxError, strconv.rangeError.
    destruct ((48 <=? strconv.byte a) && (strconv.byte a <=? 57)) eqn:Hdig.
    + apply andb_true_iff in Hdig as [Hlo%Z.leb_le Hhi%Z.leb_le]. cbv beta iota.
      destruct (strconv.byte a - 48 >=? 10) eqn:Hbase; [intros [=]|].
      destruct (n >=? 1844674407370955162) eqn:Hcut; [intros [=]|].
      rewrite Z.geb_leb in Hcut. apply Z.leb_gt in Hcut.
      replace (wrap64 (n * 10)) with (n * 10)
        by (unfold wrap64; rewrite Z.mod_small; lia).
      destruct ((wrap64 (n * 10 + (strconv.byte a - 48)) <? n * 10)
                || (wrap64 (n * 10 + (strconv.byte a - 48)) >? 18446744073709551615))
        eqn:Hov; [intros [=]|].
      apply orb_false_iff in Hov as [Hlt%Z.ltb_ge _].
      assert (Hsmall : n * 10 + (strconv.byte a - 48) < 2 ^ 64).
      { destruct (Z_lt_dec (n * 10 + (strconv.byte a - 48)) (2 ^ 64)) as [|Hge]; [done|].
        exfalso.
        assert (wrap64 (n * 10 + (strconv.byte a - 48))
                = n * 10 + (strconv.byte a - 48) - 2 ^ 64) as Hw
          by (unfold wrap64; symmetry; apply (Z.mod_unique_pos _ _ 1); lia).
        rewrite Hw in Hlt. lia. }
      unfold wrap64. rewrite Z.mod_small by lia.
      intros Hrec. apply IH in Hrec; [|lia]. cbn [andb]. exact Hrec.
    + cbv beta iota.
      destruct ((97 <=? strconv.lower (strconv.byte a)) && _) eqn:Hlet; [|intros [=]].
      apply andb_true_iff in Hlet as [Hl%Z.leb_le _].
      replace (strconv.lower (strconv.byte a) - 97 + 10 >=? 10) with true
        by (symmetry; apply Z.geb_le; lia).
      intros [=].
Qed.

Lemma ParseUint_exact (s : string) (r : Z) :
  strconv.ParseUint s 10 64 = (r, None) ->
  s <> "" /\ allDigits s = true /\ r = decimalValue s /\ 0 <= decimalValue s < 2 ^ 64.
Proof.
  unfold strconv.ParseUint. destruct (String.eqb_spec s "") as [->|Hne]; [done|].
  change (strconv.maxUint64 / 10 + 1) with 1844674407370955162.
  change (wrap64 (Z.shiftl 1 64 - 1)) with 18446744073709551615.
  intros (Hd & -> & Hr)%parseLoop_exact; [|lia]. done.
Qed.

(** X1. Validated params carry the numbers their [from] and [until]
    values write: both values are non-empty strings of decimal digits,
    start and end are their decimal values, and these are below [2^64];
    a larger number is refused, never wrapped. *)
Theorem readParams_decimal_values (qsv : gmap string (list string)) (p : params) :
  readParams qsv = Returned (p, None) ->
  exists f rf u ru,
    qsv !! "from" = Some (f :: rf)
    /\ qsv !! "until" = Some (u :: ru)
    /\ f <> "" /\ allDigits f = true
    /\ start p = decimalValue f /\ 0 <= decimalValue f < 2 ^ 64
    /\ u <> "" /\ allDigits u = true
    /\ end_ p = decimalValue u /\ 0 <= decimalValue u < 2 ^ 64.
Proof.
  intros (f & rf & v & rn & u & ru & Hf & Hpf & _ & Hu & Hpu & _)%readParams_ok_inv.
  apply ParseUint_exact in Hpf as (Hf1 & Hf2 & Hf3 & Hf4).
  apply ParseUint_exact in Hpu as (Hu1 & Hu2 & Hu3 & Hu4).
  exists f, rf, u, ru. repeat (split; [assumption|]). exact Hu4.
Qed.

Lemma readParams_decimal_values_witness :
  exists f rf u ru,
    query3 "0017" "svc" "18446744073709551615" !! "from" = Some (f :: rf)
    /\ query3 "0017" "svc" "18446744073709551615" !! "until" = Some (u :: ru)
    /\ f <> "" /\ allDigits f = true
    /\ 17 = decimalValue f /\ 0 <= decimalValue f < 2 ^ 64
    /\ u <> "" /\ allDigits u = true
    /\ 18446744073709551615 = decimalValue u /\ 0 <= decimalValue u < 2 ^ 64.
Proof.
  apply (readParams_decimal_values (query3 "0017" "svc" "18446744073709551615")
           {| start := 17; end_ := 18446744073709551615; name := "svc"; labels := [] |}).
  vm_compute; reflexivity.
Defined.

(** The overflow checks are what keeps a value from wrapping: 2^64 is
    refused. *)
Lemma ParseUint_refuses_overflow :
  strconv.ParseUint "18446744073709551616" 10 64
  = (18446744073709551615, Some (NumError "ParseUint" "18446744073709551616" ErrRange)).
Proof. vm_compute; reflexivity. Qed.

Lemma LastIndexFrom_end (c : ascii) (s : string) (pos last : Z) :
  LastIndexFrom c (s ++ String c "") pos last = pos + len s.
Proof.
  revert pos last. induction s as [|a s IH]; intros pos last.
  - rewrite append_nil_l. cbn [LastIndexFrom]. rewrite Ascii.eqb_refl.
    change (len "") with 0. lia.
  - rewrite append_cons, len_cons. cbn [LastIndexFrom]. rewrite IH. lia.
Qed.

(** On a value that ends with its closing brace, the block of the
    grammar is the slice the code takes. *)
Lemma grammarLabelBlock_closed (app blk : string) :
  GoStrings.Index app "{" = -1 ->
  let v := app ++ "{" ++ blk ++ "}" in
  grammarLabelBlock v = Some blk
  /\ slice v (GoStrings.Index v "{" + 1) (len v - 1) = Returned blk.
Proof.
  intros Happ v. subst v.
  destruct (brace_parts app blk "}" Happ) as (Hi & Hb & _). cbn zeta in *.
  change (String "}" "") with "}" in *.
  assert (Hlast : LastIndex (app ++ "{" ++ blk ++ "}") "}"
                  = len (app ++ "{" ++ blk ++ "}") - 1).
  { unfold LastIndex. rewrite <- !append_assoc.
    change "}" with (String "}" "") at 1. rewrite LastIndexFrom_end.
    rewrite (len_app _ "}"). change (len "}") with 1. lia. }
  split; [|by rewrite Hi].
  unfold grammarLabelBlock. cbv zeta. rewrite Hi, Hlast, Hb.
  pose proof (len_nonneg app). pose proof (len_nonneg blk).
  replace ((0 <=? len app) && (len app <? len (app ++ "{" ++ blk ++ "}") - 1)) with true;
    [done|].
  symmetry. rewrite andb_true_iff, Z.leb_le, Z.ltb_lt, !len_app.
  change (len "{") with 1. change (len "}") with 1. lia.
Qed.

(** C6 (the code departs from the claim).  In [app{a}=b,] the label
    block of the grammar, between [{] and the final [}], is [a]: one
    word, an odd number.  [readParams] does not look for the closing
    brace; it takes [a}=b] as the block, returns the label [a}] = [b]
    without an error, and the handler delegates the batch and answers
    204. *)
Theorem text_after_brace_accepted :
  let v := "app{a}=b," in
  let req := jfrRequest "POST" (queryJfr "1000" v "2000") in
  let t := fst (handle QuotePlain lateRecv req) in
  grammarLabelBlock v = Some "a"
  /\ lenS (GoStrings.FieldsFunc "a" isLabelSep) = 1
  /\ readParams (Query req)
     = Returned ({| start := 1000; end_ := 2000; name := "app";
                    labels := [{| Name := "a}"; Value := "b" |}] |}, None)
  /\ responses t = [("", StatusNoContent, None)]
  /\ count isConsumeLogs t = 1%nat.
Proof. cbv zeta. split_and!; vm_compute; reflexivity. Qed.

Section ClosedValue.

Variable Quote : string -> string.

(** On a value that ends with its closing brace the code does what the
    grammar asks: an odd number of words in the block is rejected. *)
Lemma odd_tokens_rejected_when_closed
    (recv : pyroscopeReceiver) (req : Request)
    (f app blk : string) (rf rn : list string) (s : Z) :
  Query req !! "from" = Some (f :: rf) ->
  strconv.ParseUint f 10 64 = (s, None) ->
  GoStrings.Index app "{" = -1 ->
  Query req !! "name" = Some ((app ++ "{" ++ blk ++ "}") :: rn) ->
  grammarLabelBlock (app ++ "{" ++ blk ++ "}") = Some blk ->
  blk <> "" ->
  Z.odd (lenS (GoStrings.FieldsFunc blk isLabelSep)) = true ->
  readParams (Query req)
  = Returned ({| start := s; end_ := 0; name := ""; labels := [] |},
              Some (errorString "failed to compile labels"))
  /\ responses (fst (handle Quote recv req))
     = [("text/plain", StatusBadRequest, Some "bad url query")].
Proof.
  intros Hfrom Hpf Happ Hname _ Hne Hodd.
  destruct (grammarLabelBlock_closed app blk Happ) as [_ Hblk]. cbn zeta in Hblk.
  destruct (brace_parts app blk "}" Happ) as (Hi & _ & _). cbn zeta in Hi.
  change (String "}" "") with "}" in Hi. pose proof (len_nonneg app).
  assert (Hr : readParams (Query req)
               = Returned ({| start := s; end_ := 0; name := ""; labels := [] |},
                           Some (errorString "failed to compile labels"))).
  { eapply readParams_odd_words; try done. rewrite Hi. lia. }
  split; [done|]. by rewrite (handle_bad_query Quote recv req _ _ Hr).
Qed.

End ClosedValue.
